(** * Ranging-Tripwire: the detector of Tripwire.h / Tripwire.cpp

    A shallow embedding of class [Tripwire]: the calibration loop that
    estimates the baseline distance of a ranging sensor, and the debounced
    detection state machine of [update()].

    The object is a record with one field per data member.  The three
    things the class gets from outside are inputs of the embedded functions:
    - the ranging function [*_get_range] answers with the next value of a
      stream of readings;
    - [millis()] answers with the clock value handed to the call;
    - the callbacks are opaque code: invoking one is recorded in the list of
      events a call returns, and is assumed not to touch the detector.
    [delay()] only lets time pass and touches no data member. *)

From Stdlib Require Import ZArith List Bool Lia.
Import ListNotations.
Local Open Scope Z_scope.

(** ** Integers of the target

    The library is written for Arduino boards.  [long] and [unsigned long]
    are 32 bits wide there; [int] is 16 bits wide on the AVR boards.
    Unsigned arithmetic is modulo 2^32; signed results are reduced to the
    two's-complement range, which is what the target does on overflow. *)

Module Machine.

Definition int_bits : Z := 16.
Definition long_bits : Z := 32.

(** Value of the low [w] bits of [z], read as a two's-complement number. *)
Definition swrap (w z : Z) : Z := (z + 2 ^ (w - 1)) mod 2 ^ w - 2 ^ (w - 1).
(** Value of the low [w] bits of [z], read as an unsigned number. *)
Definition uwrap (w z : Z) : Z := z mod 2 ^ w.

Definition INT_MIN : Z := - 2 ^ (int_bits - 1).
Definition INT_MAX : Z := 2 ^ (int_bits - 1) - 1.
Definition LONG_MIN : Z := - 2 ^ (long_bits - 1).
Definition LONG_MAX : Z := 2 ^ (long_bits - 1) - 1.
Definition ULONG_MAX : Z := 2 ^ long_bits - 1.

Definition int_range (z : Z) : Prop := INT_MIN <= z <= INT_MAX.
Definition long_range (z : Z) : Prop := LONG_MIN <= z <= LONG_MAX.
Definition ulong_range (z : Z) : Prop := 0 <= z <= ULONG_MAX.

Definition int_add (a b : Z) : Z := swrap int_bits (a + b).
Definition long_add (a b : Z) : Z := swrap long_bits (a + b).
Definition long_sub (a b : Z) : Z := swrap long_bits (a - b).
Definition long_neg (a : Z) : Z := swrap long_bits (- a).
(** [/] of C++ truncates towards zero. *)
Definition long_div (a b : Z) : Z := swrap long_bits (Z.quot a b).
Definition ulong_add (a b : Z) : Z := uwrap long_bits (a + b).
Definition ulong_sub (a b : Z) : Z := uwrap long_bits (a - b).

(** Modelled from the spec: [abs] comes from Arduino.h, which is not among
    the sources.  The spec writes the deviation of a sample as
    |baseline_distance - new_reading|; Arduino.h has
    [((x)>0?(x):-(x))], the same value, the negation being a [long]
    negation. *)
Definition abs (x : Z) : Z := if 0 <? x then x else long_neg x.

End Machine.
Import Machine.

(** ** The object *)

(** A function pointer is the address of the function; the null pointer is
    [None]. *)
Definition range_function : Type := positive.
Definition event_callback : Type := positive.

Record Tripwire : Type := mkTripwire {
  is_calibrated : bool;
  num_detections : Z;             (* unsigned long *)
  distance : Z;                   (* long *)
  baseline_distance : Z;          (* long *)
  baseline_variance : Z;          (* long *)
  distance_threshold : Z;         (* long *)
  min_baseline_reads : Z;         (* int *)
  max_baseline_reads : Z;         (* int *)
  max_baseline_variance : Z;      (* long *)
  baseline_read_interval : Z;     (* long *)
  min_successive_detections : Z;  (* int *)
  last_event_width : Z;           (* unsigned long *)
  event_start_time : Z;           (* unsigned long *)
  _event_start : option event_callback;
  _event_end : option event_callback;
  _get_range : option range_function;
  _successive_detections : Z      (* int *)
}.

(** Assignments to single data members. *)
Definition set_is_calibrated (v : bool) (t : Tripwire) : Tripwire :=
  mkTripwire v (num_detections t) (distance t) (baseline_distance t)
    (baseline_variance t) (distance_threshold t) (min_baseline_reads t)
    (max_baseline_reads t) (max_baseline_variance t) (baseline_read_interval t)
    (min_successive_detections t) (last_event_width t) (event_start_time t)
    (_event_start t) (_event_end t) (_get_range t) (_successive_detections t).

Definition set_num_detections (v : Z) (t : Tripwire) : Tripwire :=
  mkTripwire (is_calibrated t) v (distance t) (baseline_distance t)
    (baseline_variance t) (distance_threshold t) (min_baseline_reads t)
    (max_baseline_reads t) (max_baseline_variance t) (baseline_read_interval t)
    (min_successive_detections t) (last_event_width t) (event_start_time t)
    (_event_start t) (_event_end t) (_get_range t) (_successive_detections t).

Definition set_distance (v : Z) (t : Tripwire) : Tripwire :=
  mkTripwire (is_calibrated t) (num_detections t) v (baseline_distance t)
    (baseline_variance t) (distance_threshold t) (min_baseline_reads t)
    (max_baseline_reads t) (max_baseline_variance t) (baseline_read_interval t)
    (min_successive_detections t) (last_event_width t) (event_start_time t)
    (_event_start t) (_event_end t) (_get_range t) (_successive_detections t).

Definition set_baseline_distance (v : Z) (t : Tripwire) : Tripwire :=
  mkTripwire (is_calibrated t) (num_detections t) (distance t) v
    (baseline_variance t) (distance_threshold t) (min_baseline_reads t)
    (max_baseline_reads t) (max_baseline_variance t) (baseline_read_interval t)
    (min_successive_detections t) (last_event_width t) (event_start_time t)
    (_event_start t) (_event_end t) (_get_range t) (_successive_detections t).

Definition set_baseline_variance (v : Z) (t : Tripwire) : Tripwire :=
  mkTripwire (is_calibrated t) (num_detections t) (distance t)
    (baseline_distance t) v (distance_threshold t) (min_baseline_reads t)
    (max_baseline_reads t) (max_baseline_variance t) (baseline_read_interval t)
    (min_successive_detections t) (last_event_width t) (event_start_time t)
    (_event_start t) (_event_end t) (_get_range t) (_successive_detections t).

Definition set_last_event_width (v : Z) (t : Tripwire) : Tripwire :=
  mkTripwire (is_calibrated t) (num_detections t) (distance t)
    (baseline_distance t) (baseline_variance t) (distance_threshold t)
    (min_baseline_reads t) (max_baseline_reads t) (max_baseline_variance t)
    (baseline_read_interval t) (min_successive_detections t) v
    (event_start_time t) (_event_start t) (_event_end t) (_get_range t)
    (_successive_detections t).

Definition set_event_start_time (v : Z) (t : Tripwire) : Tripwire :=
  mkTripwire (is_calibrated t) (num_detections t) (distance t)
    (baseline_distance t) (baseline_variance t) (distance_threshold t)
    (min_baseline_reads t) (max_baseline_reads t) (max_baseline_variance t)
    (baseline_read_interval t) (min_successive_detections t)
    (last_event_width t) v (_event_start t) (_event_end t) (_get_range t)
    (_successive_detections t).

Definition set__event_start (v : option event_callback) (t : Tripwire)
  : Tripwire :=
  mkTripwire (is_calibrated t) (num_detections t) (distance t)
    (baseline_distance t) (baseline_variance t) (distance_threshold t)
    (min_baseline_reads t) (max_baseline_reads t) (max_baseline_variance t)
    (baseline_read_interval t) (min_successive_detections t)
    (last_event_width t) (event_start_time t) v (_event_end t) (_get_range t)
    (_successive_detections t).

Definition set__event_end (v : option event_callback) (t : Tripwire)
  : Tripwire :=
  mkTripwire (is_calibrated t) (num_detections t) (distance t)
    (baseline_distance t) (baseline_variance t) (distance_threshold t)
    (min_baseline_reads t) (max_baseline_reads t) (max_baseline_variance t)
    (baseline_read_interval t) (min_successive_detections t)
    (last_event_width t) (event_start_time t) (_event_start t) v (_get_range t)
    (_successive_detections t).

Definition set__get_range (v : option range_function) (t : Tripwire)
  : Tripwire :=
  mkTripwire (is_calibrated t) (num_detections t) (distance t)
    (baseline_distance t) (baseline_variance t) (distance_threshold t)
    (min_baseline_reads t) (max_baseline_reads t) (max_baseline_variance t)
    (baseline_read_interval t) (min_successive_detections t)
    (last_event_width t) (event_start_time t) (_event_start t) (_event_end t) v
    (_successive_detections t).

Definition set__successive_detections (v : Z) (t : Tripwire) : Tripwire :=
  mkTripwire (is_calibrated t) (num_detections t) (distance t)
    (baseline_distance t) (baseline_variance t) (distance_threshold t)
    (min_baseline_reads t) (max_baseline_reads t) (max_baseline_variance t)
    (baseline_read_interval t) (min_successive_detections t)
    (last_event_width t) (event_start_time t) (_event_start t) (_event_end t)
    (_get_range t) v.

(** Defaults of Tripwire.h. *)
Definition DEFAULT_DISTANCE_THRESHOLD : Z := 70.
Definition DEFAULT_MIN_BASELINE_READS : Z := 20.
Definition DEFAULT_MAX_BASELINE_READS : Z := 40.
Definition DEFAULT_MAX_BASELINE_VARIANCE : Z := DEFAULT_DISTANCE_THRESHOLD.
Definition DEFAULT_BASELINE_READ_INTERVAL : Z := 100.
Definition DEFAULT_MINIMUM_SUCCESSIVE_DETECTIONS : Z := 0.

(** Storage of an object with static storage duration before its
    constructor runs: all zero, all pointers null. *)
Definition zeroed : Tripwire :=
  mkTripwire false 0 0 0 0 0 0 0 0 0 0 0 0 None None None 0.

(** [Tripwire::Tripwire(get_range)], run on the storage [raw].  The members
    it does not assign ([_get_range] when the argument is null, both
    callbacks, the counter, the event times and [num_detections]) keep what
    the storage held. *)
Definition Tripwire_ctor (get_range : option range_function) (raw : Tripwire)
  : Tripwire :=
  mkTripwire
    false
    (num_detections raw)
    0
    0
    0
    DEFAULT_DISTANCE_THRESHOLD
    DEFAULT_MIN_BASELINE_READS
    DEFAULT_MAX_BASELINE_READS
    DEFAULT_MAX_BASELINE_VARIANCE
    DEFAULT_BASELINE_READ_INTERVAL
    DEFAULT_MINIMUM_SUCCESSIVE_DETECTIONS
    (last_event_width raw)
    (event_start_time raw)
    (_event_start raw)
    (_event_end raw)
    (match get_range with Some f => Some f | None => _get_range raw end)
    (_successive_detections raw).

(** ** Calls into the outside world *)

(** A call either returns, or is a call through a null function pointer:
    the program has no defined behaviour from there on. *)
Inductive Outcome (A : Type) : Type :=
| Done (a : A)
| NullCall.
Arguments Done {A} a.
Arguments NullCall {A}.

Definition bind {A B : Type} (m : Outcome A) (k : A -> Outcome B) : Outcome B :=
  match m with
  | Done a => k a
  | NullCall => NullCall
  end.

Notation "' p <- m ;; k" := (bind m (fun p => k))
  (at level 61, p pattern, m at next level, right associativity).

(** Invocation of a callback. *)
Inductive Event : Type :=
| Invoke (f : event_callback).

(** Calls the callback [cb] when it is set. *)
Definition fire (cb : option event_callback) : list Event :=
  match cb with
  | Some f => [Invoke f]
  | None => []
  end.

(** What the outside world answers during one [update()]: the value the
    ranging function returns and the value [millis()] returns. *)
Record Input : Type := mkInput {
  range : Z;   (* long *)
  millis : Z   (* unsigned long *)
}.

(** ** [Tripwire::calibrate] *)

(** [_get_range && distance_threshold] *)
Definition configured (t : Tripwire) : bool :=
  match _get_range t with
  | Some _ => negb (distance_threshold t =? 0)
  | None => false
  end.

(** Lines 50-52: the first reading seeds both estimates;
    the result is paired with [baseline_reads]. *)
Definition calibrate_seed (reading : Z) (t : Tripwire) : Tripwire * Z :=
  let t := set_baseline_distance reading t in
  let t := set_baseline_variance (baseline_distance t) t in
  (t, 1).

(** The condition of the [while]. *)
Definition loop_cond (t : Tripwire) (baseline_reads : Z) : bool :=
  ((baseline_reads <? min_baseline_reads t)
   || (max_baseline_variance t <? baseline_variance t))
  && (baseline_reads <? max_baseline_reads t).

(** [abs(baseline_distance - new_range)] *)
Definition new_variance (t : Tripwire) (new_range : Z) : Z :=
  abs (long_sub (baseline_distance t) new_range).

(** The body of the [while], for the reading [new_range]. *)
Definition loop_body (new_range : Z) (t : Tripwire) (baseline_reads : Z)
  : Tripwire * Z :=
  let nv := new_variance t new_range in
  let t' := set_baseline_variance
              (long_div (long_add (baseline_variance t) nv) 2) t in
  let t' := set_baseline_distance
              (long_div (long_add (baseline_distance t') new_range) 2) t' in
  (t', int_add baseline_reads 1).

(** The [while] loop.  [sensor k] is the answer of the ranging function to
    its [k]-th call (from 0) during this calibration, [k] the number of calls
    made so far.  The result carries the number of calls made. *)
Fixpoint calibrate_loop (fuel : nat) (sensor : nat -> Z) (k : nat)
    (t : Tripwire) (baseline_reads : Z) : Tripwire * Z * nat :=
  match fuel with
  | O => (t, baseline_reads, k)
  | S fuel' =>
      if loop_cond t baseline_reads then
        let '(t', reads') := loop_body (sensor k) t baseline_reads in
        calibrate_loop fuel' sensor (S k) t' reads'
      else (t, baseline_reads, k)
  end.

(** Iterations that are always enough: [baseline_reads] starts at 1, grows
    by one per iteration and an iteration needs it below
    [max_baseline_reads] (see [calibrate_loop_exits]). *)
Definition loop_fuel (t : Tripwire) : nat := Z.to_nat (max_baseline_reads t).

(** [Tripwire::calibrate()]; the second component is the number of readings
    taken. *)
Definition calibrate (sensor : nat -> Z) (t : Tripwire) : Tripwire * nat :=
  let t := set_is_calibrated false t in
  if configured t then
    let '(t, reads) := calibrate_seed (sensor 0%nat) t in
    let '(t, _, k) := calibrate_loop (loop_fuel t) sensor 1%nat t reads in
    if baseline_variance t <? max_baseline_variance t
    then (set_is_calibrated true t, k)
    else (t, k)
  else (t, 0%nat).

(** [Tripwire::start()] *)
Definition start (sensor : nat -> Z) (t : Tripwire) : Tripwire * nat :=
  let t := set_event_start_time 0 t in
  let t := set_last_event_width 0 t in
  let t := set__successive_detections 0 t in
  let t := set_num_detections 0 t in
  calibrate sensor t.

(** ** [Tripwire::update] *)

(** The call through [_get_range]. *)
Definition call_range (f : option range_function) (w : Input) : Outcome Z :=
  match f with
  | Some _ => Done (range w)
  | None => NullCall
  end.

(** [(baseline_distance - distance) > distance_threshold], for a reading
    [d]. *)
Definition detected (t : Tripwire) (d : Z) : bool :=
  distance_threshold t <? long_sub (baseline_distance t) d.

(** The first branch of the detected case is taken: the event is
    confirmed. *)
Definition confirms (t : Tripwire) (d : Z) : bool :=
  detected t d && (_successive_detections t =? min_successive_detections t).

Definition update (w : Input) (t : Tripwire) : Outcome (Tripwire * list Event) :=
  ' d <- call_range (_get_range t) w ;;
  let t := set_distance d t in
  if distance_threshold t <? long_sub (baseline_distance t) (distance t) then
    if _successive_detections t =? min_successive_detections t then
      let t := set__successive_detections
                 (int_add (_successive_detections t) 1) t in
      let t := set_event_start_time (millis w) t in
      let t := set_num_detections (ulong_add (num_detections t) 1) t in
      Done (t, fire (_event_start t))
    else if _successive_detections t <? min_successive_detections t then
      Done (set__successive_detections
              (int_add (_successive_detections t) 1) t, [])
    else Done (t, [])
  else
    let '(t, ev) :=
      if 0 <? _successive_detections t then
        (set_last_event_width
           (ulong_sub (millis w) (event_start_time t)) t,
         fire (_event_end t))
      else (t, []) in
    Done (set__successive_detections 0 t, ev).

(** ** Setters and [reset_event_status] *)

Definition set_range_function (function : option range_function)
    (t : Tripwire) : Tripwire :=
  match function with
  | Some f => set__get_range (Some f) t
  | None => t
  end.

Definition set_event_start_callback (callback : option event_callback)
    (t : Tripwire) : Tripwire :=
  match callback with
  | Some f => set__event_start (Some f) t
  | None => t
  end.

Definition set_event_end_callback (callback : option event_callback)
    (t : Tripwire) : Tripwire :=
  match callback with
  | Some f => set__event_end (Some f) t
  | None => t
  end.

Definition reset_event_status (t : Tripwire) : Tripwire :=
  set__successive_detections 0 t.

(** ** Sequences of calls *)

Inductive Call : Type :=
| Update (w : Input)
| ResetEventStatus.

Definition call (c : Call) (t : Tripwire) : Outcome (Tripwire * list Event) :=
  match c with
  | Update w => update w t
  | ResetEventStatus => Done (reset_event_status t, [])
  end.

(** Runs the calls in order; the result lists, call by call, the callbacks
    invoked. *)
Fixpoint run (cs : list Call) (t : Tripwire)
  : Outcome (Tripwire * list (list Event)) :=
  match cs with
  | [] => Done (t, [])
  | c :: cs' =>
      ' (t1, ev) <- call c t ;;
      ' (t2, evs) <- run cs' t1 ;;
      Done (t2, ev :: evs)
  end.

(** The state after the calls, when none of them was a call through a null
    pointer. *)
Definition state_after (cs : list Call) (t : Tripwire) : option Tripwire :=
  match run cs t with
  | Done (t', _) => Some t'
  | NullCall => None
  end.

(** [t] is the state some sequence of [update()] and [reset_event_status()]
    calls leads to after [start()]. *)
Definition reachable_from_start (t : Tripwire) : Prop :=
  exists (sensor : nat -> Z) (t0 : Tripwire) (cs : list Call),
    state_after cs (fst (start sensor t0)) = Some t.

(** The call [c] in state [t] is an [update()] that confirms an event. *)
Definition confirming (c : Call) (t : Tripwire) : bool :=
  match c with
  | Update w => confirms t (range w)
  | ResetEventStatus => false
  end.

(** [update()] called once for each input. *)
Definition updates (ws : list Input) : list Call := map Update ws.





Arguments swrap : simpl never.
Arguments uwrap : simpl never.
Arguments int_add : simpl never.
Arguments long_add : simpl never.
Arguments long_sub : simpl never.
Arguments long_neg : simpl never.
Arguments long_div : simpl never.
Arguments ulong_add : simpl never.
Arguments ulong_sub : simpl never.
Arguments abs : simpl never.
Arguments loop_body : simpl never.
Arguments new_variance : simpl never.

(** ** Public configuration members

    The configuration members are public: the caller assigns them directly. *)

Definition set_min_successive_detections (v : Z) (t : Tripwire) : Tripwire :=
  mkTripwire (is_calibrated t) (num_detections t) (distance t)
    (baseline_distance t) (baseline_variance t) (distance_threshold t)
    (min_baseline_reads t) (max_baseline_reads t) (max_baseline_variance t)
    (baseline_read_interval t) v (last_event_width t) (event_start_time t)
    (_event_start t) (_event_end t) (_get_range t) (_successive_detections t).

Definition set_max_baseline_reads (v : Z) (t : Tripwire) : Tripwire :=
  mkTripwire (is_calibrated t) (num_detections t) (distance t)
    (baseline_distance t) (baseline_variance t) (distance_threshold t)
    (min_baseline_reads t) v (max_baseline_variance t)
    (baseline_read_interval t) (min_successive_detections t)
    (last_event_width t) (event_start_time t) (_event_start t) (_event_end t)
    (_get_range t) (_successive_detections t).

(** ** Concrete detectors and sensors *)

Module Scenario.

Definition read_sonar : range_function := 1%positive.
Definition on_start : event_callback := 2%positive.
Definition on_end : event_callback := 3%positive.

(** A global [Tripwire tripwire(read_sonar);] with the default
    configuration. *)
Definition fresh : Tripwire := Tripwire_ctor (Some read_sonar) zeroed.

(** A global [Tripwire tripwire;]: no ranging function was ever given. *)
Definition unconfigured : Tripwire := Tripwire_ctor None zeroed.

(** Both callbacks registered. *)
Definition wired (t : Tripwire) : Tripwire :=
  set_event_end_callback (Some on_end)
    (set_event_start_callback (Some on_start) t).

(** A sensor facing a wall 100 units away. *)
Definition steady (k : nat) : Z := 100.


(** A sensor that alternates between 1000 and 0. *)
Definition swinging (k : nat) : Z := if Nat.even k then 1000 else 0.

(** The detector with both callbacks registered, after [start()] in front
    of the wall. *)
Definition watching : Tripwire := fst (start steady (wired fresh)).

(** The readings 100, 100, 20, 20, 100 taken at the times [t1] .. [t5]. *)
Definition crossing (t1 t2 t3 t4 t5 : Z) : list Call :=
  updates [mkInput 100 t1; mkInput 100 t2; mkInput 20 t3; mkInput 20 t4;
           mkInput 100 t5].

(** The state the calls [cs] lead to from [t]. *)
Definition after (cs : list Call) (t : Tripwire) : Tripwire :=
  match state_after cs t with
  | Some t' => t'
  | None => t
  end.

(** A detector that wants three detections in a row, after [start()] and
    one detection: the counter is at 1, no event has been confirmed. *)
Definition arming : Tripwire :=
  after [Update (mkInput 20 100)]
    (fst (start steady (set_min_successive_detections 3 (wired fresh)))).

(** One object passing and leaving, [n] times over. *)
Definition passes (n : nat) : list Call :=
  concat (repeat [Update (mkInput 20 0); Update (mkInput 100 0)] n).

(** [n] detections in a row. *)
Definition blocked (n : nat) : list Call :=
  repeat (Update (mkInput 20 0)) n.

(** A detector asked for the largest debounce depth an [int] can hold. *)
Definition patient : Tripwire :=
  fst (start steady (set_min_successive_detections INT_MAX (wired fresh))).

(** The detector is at rest in front of the wall, with no debounce. *)
Definition at_rest (t : Tripwire) : Prop :=
  _get_range t <> None /\ min_successive_detections t = 0
  /\ _successive_detections t = 0 /\ baseline_distance t = 100
  /\ distance_threshold t = 70 /\ ulong_range (num_detections t).

(** The calibrated detector after the caller has set the public
    [distance_threshold] to 0. *)
Definition disarmed : Tripwire :=
  mkTripwire (is_calibrated watching) (num_detections watching)
    (distance watching) (baseline_distance watching)
    (baseline_variance watching) 0 (min_baseline_reads watching)
    (max_baseline_reads watching) (max_baseline_variance watching)
    (baseline_read_interval watching) (min_successive_detections watching)
    (last_event_width watching) (event_start_time watching)
    (_event_start watching) (_event_end watching) (_get_range watching)
    (_successive_detections watching).

(** The detector after [start()] with no callback registered. *)
Definition silent : Tripwire := fst (start steady fresh).

(** A detector that wants three detections in a row, after [start()]. *)
Definition cautious : Tripwire :=
  fst (start steady (set_min_successive_detections 3 (wired fresh))).

(** The state the first detection puts [watching] in. *)
Definition tripped : Tripwire := after [Update (mkInput 20 7)] watching.

End Scenario.

(** [t'] is [t] with new values for the two running estimates. *)
Definition estimates_replaced (t t' : Tripwire) : Prop :=
  t' = set_baseline_distance (baseline_distance t')
         (set_baseline_variance (baseline_variance t') t).

(** ** The whole interface *)

(** What [calibrate()] reads of the object besides the sensor. *)
Definition calibration_config (t : Tripwire) : bool * Z * Z * Z :=
  (configured t, min_baseline_reads t, max_baseline_reads t,
   max_baseline_variance t).

(** What [calibrate()] produces: the verdict, the two estimates and the
    number of readings taken. *)
Definition calibration_result (p : Tripwire * nat) : bool * Z * Z * nat :=
  (is_calibrated (fst p), baseline_distance (fst p),
   baseline_variance (fst p), snd p).

(** The calibration state, the configuration and the three pointers. *)
Definition settings (t : Tripwire)
  : bool * Z * Z * Z * Z * Z * Z * Z * Z
    * option event_callback * option event_callback * option range_function :=
  (is_calibrated t, baseline_distance t, baseline_variance t,
   distance_threshold t, min_baseline_reads t, max_baseline_reads t,
   max_baseline_variance t, baseline_read_interval t,
   min_successive_detections t, _event_start t, _event_end t, _get_range t).

(** [t'] is [t] with new values for the counter and [distance]. *)
Definition counter_distance_replaced (t t' : Tripwire) : Prop :=
  t' = set__successive_detections (_successive_detections t')
         (set_distance (distance t') t).

(** The reading [d] ends an event: it is not a detection and the counter is
    positive. *)
Definition ends (t : Tripwire) (d : Z) : bool :=
  negb (detected t d) && (0 <? _successive_detections t).

(** The event is an invocation of the callback [g] and nothing else. *)
Definition invokes (g : event_callback) (ev : list Event) : bool :=
  match ev with
  | [Invoke f] => Pos.eqb f g
  | _ => false
  end.

(** In how many of the calls the callback [g] was invoked. *)
Definition invocations (g : event_callback) (evs : list (list Event)) : nat :=
  length (filter (invokes g) evs).

(** The public member functions, with what the outside world answers
    during the call. *)
Inductive Method : Type :=
| MStart (sensor : nat -> Z)
| MCalibrate (sensor : nat -> Z)
| MUpdate (w : Input)
| MSetRangeFunction (function : option range_function)
| MSetEventStartCallback (callback : option event_callback)
| MSetEventEndCallback (callback : option event_callback)
| MResetEventStatus.

Definition invoke (m : Method) (t : Tripwire)
  : Outcome (Tripwire * list Event) :=
  match m with
  | MStart sensor => Done (fst (start sensor t), [])
  | MCalibrate sensor => Done (fst (calibrate sensor t), [])
  | MUpdate w => update w t
  | MSetRangeFunction f => Done (set_range_function f t, [])
  | MSetEventStartCallback f => Done (set_event_start_callback f t, [])
  | MSetEventEndCallback f => Done (set_event_end_callback f t, [])
  | MResetEventStatus => Done (reset_event_status t, [])
  end.

Fixpoint invoke_all (ms : list Method) (t : Tripwire)
  : Outcome (Tripwire * list (list Event)) :=
  match ms with
  | [] => Done (t, [])
  | m :: ms' =>
      ' (t1, ev) <- invoke m t ;;
      ' (t2, evs) <- invoke_all ms' t1 ;;
      Done (t2, ev :: evs)
  end.

(** ** Proof automation *)

Ltac fields :=
  cbn [is_calibrated num_detections distance baseline_distance
       baseline_variance distance_threshold min_baseline_reads
       max_baseline_reads max_baseline_variance baseline_read_interval
       min_successive_detections last_event_width event_start_time
       _event_start _event_end _get_range _successive_detections
       set_is_calibrated set_num_detections set_distance
       set_baseline_distance set_baseline_variance set_last_event_width
       set_event_start_time set__event_start set__event_end set__get_range
       set__successive_detections set_min_successive_detections
       set_max_baseline_reads reset_event_status bind fst snd].

(** Closed goals: evaluate, then compare constructors. *)
Ltac evaluate :=
  vm_compute; repeat split; first [reflexivity | discriminate].

Ltac enter_update Hf :=
  unfold update, call_range;
  destruct (_get_range _) eqn:?; [clear Hf | contradiction Hf; reflexivity];
  fields.

(** * Properties *)

(** ** Machine arithmetic *)

Section Arithmetic.

Lemma INT_MIN_eq : INT_MIN = -32768.
Proof. reflexivity. Qed.

Lemma INT_MAX_eq : INT_MAX = 32767.
Proof. reflexivity. Qed.

Lemma ULONG_MAX_eq : ULONG_MAX = 4294967295.
Proof. reflexivity. Qed.

Lemma long_wrap_id (z : Z) : long_range z -> swrap long_bits z = z.
Proof.
  unfold long_range, LONG_MIN, LONG_MAX, swrap, long_bits.
  change (2 ^ (32 - 1)) with 2147483648.
  change (2 ^ 32) with 4294967296.
  intros H. rewrite Z.mod_small; lia.
Qed.

Lemma int_wrap_id (z : Z) : int_range z -> swrap int_bits z = z.
Proof.
  unfold int_range, INT_MIN, INT_MAX, swrap, int_bits.
  change (2 ^ (16 - 1)) with 32768.
  change (2 ^ 16) with 65536.
  intros H. rewrite Z.mod_small; lia.
Qed.

Lemma ulong_wrap_id (z : Z) : ulong_range z -> uwrap long_bits z = z.
Proof.
  unfold ulong_range, ULONG_MAX, uwrap, long_bits.
  change (2 ^ 32) with 4294967296.
  intros H. apply Z.mod_small. lia.
Qed.

Lemma ulong_wrap_range (z : Z) : ulong_range (uwrap long_bits z).
Proof.
  unfold ulong_range, ULONG_MAX, uwrap, long_bits.
  change (2 ^ 32) with 4294967296.
  pose proof (Z.mod_pos_bound z 4294967296). lia.
Qed.




End Arithmetic.

(** ** Calibration *)

Section Calibration.

Variable sensor : nat -> Z.

Lemma loop_cond_reads (t : Tripwire) (reads : Z) :
  loop_cond t reads = true -> reads < max_baseline_reads t.
Proof.
  unfold loop_cond. intros H.
  apply andb_true_iff in H. destruct H as [_ H].
  now apply Z.ltb_lt.
Qed.

(** An iteration counts one reading; the count cannot overflow, being
    below [max_baseline_reads] when the body is entered. *)
Lemma loop_body_reads (r : Z) (t : Tripwire) (reads : Z) :
  int_range (max_baseline_reads t) -> INT_MIN <= reads ->
  reads < max_baseline_reads t ->
  snd (loop_body r t reads) = reads + 1.
Proof.
  intros Hmax Hlo Hlt. unfold loop_body. simpl.
  unfold int_add. apply int_wrap_id.
  unfold int_range in *. lia.
Qed.

(** The loop is left because its condition is false, not because the
    iterations of the model ran out. *)
Lemma calibrate_loop_exits (fuel : nat) :
  forall (k : nat) (t : Tripwire) (reads : Z),
    int_range (max_baseline_reads t) -> INT_MIN <= reads ->
    max_baseline_reads t - reads <= Z.of_nat fuel ->
    exists t' reads' k',
      calibrate_loop fuel sensor k t reads = (t', reads', k')
      /\ loop_cond t' reads' = false.
Proof.
  induction fuel as [| fuel IH]; intros k t reads Hmax Hlo Hfuel.
  - exists t, reads, k. split; [reflexivity |].
    unfold loop_cond.
    replace (reads <? max_baseline_reads t) with false.
    + apply andb_false_r.
    + symmetry. apply Z.ltb_ge. simpl in Hfuel. lia.
  - cbn [calibrate_loop]. destruct (loop_cond t reads) eqn:Hc.
    + pose proof (loop_cond_reads _ _ Hc) as Hlt.
      pose proof (loop_body_reads (sensor k) t reads Hmax Hlo Hlt) as Hr.
      destruct (loop_body (sensor k) t reads) as [t1 reads1] eqn:Hb.
      simpl in Hr. subst reads1.
      assert (Hm : max_baseline_reads t1 = max_baseline_reads t).
      { unfold loop_body in Hb. inversion Hb. reflexivity. }
      apply IH; rewrite ?Hm; try assumption; lia.
    + exists t, reads, k. split; [reflexivity | assumption].
Qed.

(** Once the condition is false, more iterations change nothing. *)
Lemma calibrate_loop_more_fuel (fuel extra : nat) :
  forall (k : nat) (t : Tripwire) (reads : Z) t' reads' k',
    calibrate_loop fuel sensor k t reads = (t', reads', k') ->
    loop_cond t' reads' = false ->
    calibrate_loop (fuel + extra) sensor k t reads = (t', reads', k').
Proof.
  induction fuel as [| fuel IH]; intros k t reads t' reads' k' Hrun Hc.
  - simpl in Hrun. inversion Hrun; subst.
    destruct extra; simpl; [reflexivity |]. now rewrite Hc.
  - cbn [calibrate_loop Nat.add] in *.
    destruct (loop_cond t reads) eqn:Hc0; [| assumption].
    destruct (loop_body (sensor k) t reads) as [t1 reads1].
    now apply IH.
Qed.

(** [calibrate] is total: for a well-typed [max_baseline_reads] the
    iterations the model allows are enough. *)
Lemma calibrate_fuel_enough (t : Tripwire) (r : Z) (extra : nat) :
  int_range (max_baseline_reads t) ->
  let s := fst (calibrate_seed r t) in
  calibrate_loop (loop_fuel s + extra) sensor 1 s 1
  = calibrate_loop (loop_fuel s) sensor 1 s 1.
Proof.
  intros Hmax s.
  assert (Hs : max_baseline_reads s = max_baseline_reads t) by reflexivity.
  destruct (calibrate_loop_exits (loop_fuel s) 1 s 1) as (t' & r' & k' & Hrun & Hc).
  - now rewrite Hs.
  - rewrite INT_MIN_eq. lia.
  - unfold loop_fuel. lia.
  - rewrite Hrun. now apply calibrate_loop_more_fuel.
Qed.


End Calibration.

Lemma configured_iff (t : Tripwire) :
  configured t = true <-> _get_range t <> None /\ distance_threshold t <> 0.
Proof.
  unfold configured. destruct (_get_range t) as [f |].
  - rewrite negb_true_iff, Z.eqb_neq. intuition congruence.
  - intuition congruence.
Qed.

(** The loop writes the two running estimates and nothing else. *)
Lemma calibrate_loop_frame (sensor : nat -> Z) (fuel : nat) :
  forall (k : nat) (t : Tripwire) (reads : Z),
    estimates_replaced t (fst (fst (calibrate_loop fuel sensor k t reads))).
Proof.
  unfold estimates_replaced.
  induction fuel as [| fuel IH]; intros k t reads; cbn [calibrate_loop].
  - now destruct t.
  - destruct (loop_cond t reads); [| now destruct t].
    unfold loop_body.
    rewrite IH at 1. reflexivity.
Qed.

(** C1. After [calibrate()] with a ranging function configured and a
    nonzero [distance_threshold], [is_calibrated] is true if and only if the
    final [baseline_variance] is strictly below [max_baseline_variance]; when
    the two are equal, [is_calibrated] is false. *)
Theorem calibrate_verdict (sensor : nat -> Z) (t : Tripwire) :
  _get_range t <> None -> distance_threshold t <> 0 ->
  let t' := fst (calibrate sensor t) in
  (is_calibrated t' = true
   <-> baseline_variance t' < max_baseline_variance t')
  /\ (baseline_variance t' = max_baseline_variance t'
      -> is_calibrated t' = false).
Proof.
  intros Hf Hd.
  assert (Hc : configured t = true) by (apply configured_iff; auto).
  unfold calibrate.
  replace (configured (set_is_calibrated false t)) with true by (now rewrite <- Hc).
  cbn [calibrate_seed].
  match goal with
  | |- context [calibrate_loop ?f sensor ?k ?s ?r] =>
      pose proof (calibrate_loop_frame sensor f k s r) as Hfr;
      destruct (calibrate_loop f sensor k s r) as [[u reads'] n]
  end.
  cbn [fst] in Hfr.
  assert (Hu : is_calibrated u = false) by (rewrite Hfr; reflexivity).
  destruct (baseline_variance u <? max_baseline_variance u) eqn:Hv; cbn.
  - apply Z.ltb_lt in Hv. split; [tauto | lia].
  - apply Z.ltb_ge in Hv. rewrite Hu. split; [| reflexivity].
    split; [discriminate | lia].
Qed.

Lemma calibrate_verdict_witness :
  _get_range Scenario.fresh <> None /\ distance_threshold Scenario.fresh <> 0 /\
  (is_calibrated (fst (calibrate Scenario.steady Scenario.fresh)) = true
   <-> baseline_variance (fst (calibrate Scenario.steady Scenario.fresh))
       < max_baseline_variance (fst (calibrate Scenario.steady Scenario.fresh))).
Proof.
  split; [discriminate |]. split; [discriminate |].
  apply (calibrate_verdict Scenario.steady Scenario.fresh); discriminate.
Defined.

(** Without a ranging function, or with a zero threshold, [calibrate()]
    only clears [is_calibrated] and takes no reading. *)
Lemma calibrate_unconfigured (sensor : nat -> Z) (t : Tripwire) :
  configured t = false ->
  calibrate sensor t = (set_is_calibrated false t, 0%nat).
Proof.
  intros Hc. unfold calibrate.
  replace (configured (set_is_calibrated false t)) with false
    by (now rewrite <- Hc).
  reflexivity.
Qed.

(** C4, as the spec states it, fails for a negative first reading: the seed
    of [baseline_variance] is the reading -5 itself, not its magnitude 5. *)
Lemma seed_variance_negative_reading :
  baseline_variance (fst (calibrate_seed (-5) Scenario.fresh)) = -5
  /\ baseline_variance (fst (calibrate_seed (-5) Scenario.fresh)) <> Z.abs (-5).
Proof.
  split; [reflexivity | discriminate].
Qed.

(** The same seen from outside: with [max_baseline_reads = 1] the loop is
    not entered and [calibrate()] leaves the negative seed in
    [baseline_variance]. *)
Example calibrate_negative_seed_observable :
  baseline_variance
    (fst (calibrate (fun _ => -5) (set_max_baseline_reads 1 Scenario.fresh)))
  = -5.
Proof. reflexivity. Qed.

(** C4, amended.  After the single initial reading [baseline_variance] and
    [baseline_distance] both hold that raw reading; [baseline_variance] is
    the magnitude of the reading exactly when the reading is not negative. *)
Theorem seed_variance_is_raw_reading (reading : Z) (t : Tripwire) :
  let t' := fst (calibrate_seed reading t) in
  baseline_distance t' = reading
  /\ baseline_variance t' = reading
  /\ (baseline_variance t' = Z.abs reading <-> 0 <= reading).
Proof.
  cbn. repeat split; lia.
Qed.




(** ** Setters *)

(** C8. In every state, each of the three setters called with a null
    argument leaves the object as it is, and called with a non-null argument
    stores that argument, the other two pointers keeping their values. *)
Theorem setters_keep_on_null_replace_on_value (t : Tripwire) :
  (set_range_function None t = t
   /\ set_event_start_callback None t = t
   /\ set_event_end_callback None t = t)
  /\ (forall f : range_function,
        _get_range (set_range_function (Some f) t) = Some f
        /\ _event_start (set_range_function (Some f) t) = _event_start t
        /\ _event_end (set_range_function (Some f) t) = _event_end t)
  /\ (forall f : event_callback,
        _event_start (set_event_start_callback (Some f) t) = Some f
        /\ _get_range (set_event_start_callback (Some f) t) = _get_range t
        /\ _event_end (set_event_start_callback (Some f) t) = _event_end t)
  /\ (forall f : event_callback,
        _event_end (set_event_end_callback (Some f) t) = Some f
        /\ _get_range (set_event_end_callback (Some f) t) = _get_range t
        /\ _event_start (set_event_end_callback (Some f) t) = _event_start t).
Proof.
  repeat split.
Qed.

(** ** [update()], branch by branch *)

Section UpdateBranches.

Variables (w : Input) (t : Tripwire).
Hypothesis Hf : _get_range t <> None.

(** Without a ranging function [update()] calls through a null
    pointer. *)
Lemma update_null_range :
  forall t0 : Tripwire, _get_range t0 = None -> update w t0 = NullCall.
Proof.
  intros t0 H. unfold update, call_range. now rewrite H.
Qed.

Lemma update_confirm :
  detected t (range w) = true ->
  _successive_detections t = min_successive_detections t ->
  update w t
  = Done (set_num_detections (ulong_add (num_detections t) 1)
            (set_event_start_time (millis w)
               (set__successive_detections
                  (int_add (_successive_detections t) 1)
                  (set_distance (range w) t))),
          fire (_event_start t)).
Proof.
  unfold detected. intros Hd Hs. enter_update Hf.
  rewrite Hd. rewrite Hs, Z.eqb_refl. reflexivity.
Qed.

Lemma update_arm :
  detected t (range w) = true ->
  _successive_detections t < min_successive_detections t ->
  update w t
  = Done (set__successive_detections
            (int_add (_successive_detections t) 1)
            (set_distance (range w) t), []).
Proof.
  unfold detected. intros Hd Hs. enter_update Hf.
  rewrite Hd.
  replace (_successive_detections t =? min_successive_detections t)
    with false by (symmetry; apply Z.eqb_neq; lia).
  replace (_successive_detections t <? min_successive_detections t)
    with true by (symmetry; apply Z.ltb_lt; lia).
  reflexivity.
Qed.

Lemma update_hold :
  detected t (range w) = true ->
  min_successive_detections t < _successive_detections t ->
  update w t = Done (set_distance (range w) t, []).
Proof.
  unfold detected. intros Hd Hs. enter_update Hf.
  rewrite Hd.
  replace (_successive_detections t =? min_successive_detections t)
    with false by (symmetry; apply Z.eqb_neq; lia).
  replace (_successive_detections t <? min_successive_detections t)
    with false by (symmetry; apply Z.ltb_ge; lia).
  reflexivity.
Qed.

Lemma update_end :
  detected t (range w) = false ->
  0 < _successive_detections t ->
  update w t
  = Done (set__successive_detections 0
            (set_last_event_width
               (ulong_sub (millis w) (event_start_time t))
               (set_distance (range w) t)),
          fire (_event_end t)).
Proof.
  unfold detected. intros Hd Hs. enter_update Hf.
  rewrite Hd.
  replace (0 <? _successive_detections t)
    with true by (symmetry; apply Z.ltb_lt; lia).
  reflexivity.
Qed.

Lemma update_idle :
  detected t (range w) = false ->
  _successive_detections t <= 0 ->
  update w t
  = Done (set__successive_detections 0 (set_distance (range w) t), []).
Proof.
  unfold detected. intros Hd Hs. enter_update Hf.
  rewrite Hd.
  replace (0 <? _successive_detections t)
    with false by (symmetry; apply Z.ltb_ge; lia).
  reflexivity.
Qed.

End UpdateBranches.

Lemma ulong_sub_exact (a b : Z) :
  0 <= b <= a -> a <= ULONG_MAX -> ulong_sub a b = a - b.
Proof.
  intros Hb Ha. unfold ulong_sub. apply ulong_wrap_id.
  unfold ulong_range. lia.
Qed.

(** C3: [update()] on a detector that was never given a ranging function.
    The call goes through the null [_get_range]; [calibrate()] tests the
    pointer first, [update()] does not. *)
Theorem update_unconfigured_null_call :
  _get_range Scenario.unconfigured = None
  /\ update (mkInput 100 0) Scenario.unconfigured = NullCall
  /\ calibrate Scenario.steady Scenario.unconfigured
     = (Scenario.unconfigured, 0%nat).
Proof.
  repeat split.
Qed.

(** C2. An [update()] whose reading is not a detection leaves the counter
    at 0 whatever it was; when the counter was strictly positive it also
    sets [last_event_width] to the unsigned difference of the current time
    and [event_start_time] (their plain difference when the clock has not
    wrapped) and invokes [_event_end] if it is set.  Nothing here looks at
    whether the counter had reached [min_successive_detections]. *)
Theorem update_not_detected_ends_event (w : Input) (t : Tripwire) :
  _get_range t <> None ->
  detected t (range w) = false ->
  exists (t' : Tripwire) (ev : list Event),
    update w t = Done (t', ev)
    /\ _successive_detections t' = 0
    /\ (0 < _successive_detections t ->
        ev = fire (_event_end t)
        /\ last_event_width t' = ulong_sub (millis w) (event_start_time t)
        /\ (0 <= event_start_time t <= millis w -> millis w <= ULONG_MAX ->
            last_event_width t' = millis w - event_start_time t)).
Proof.
  intros Hf Hd.
  destruct (Z_lt_le_dec 0 (_successive_detections t)) as [Hs | Hs].
  - rewrite (update_end w t Hf Hd Hs).
    eexists. eexists. split; [reflexivity |]. fields.
    split; [reflexivity |]. intros _.
    split; [reflexivity |]. split; [reflexivity |].
    intros H1 H2. now apply ulong_sub_exact.
  - rewrite (update_idle w t Hf Hd Hs).
    eexists. eexists. split; [reflexivity |]. fields.
    split; [reflexivity |]. lia.
Qed.

(** The debounce depth is 3 and the counter is at 1: no event was confirmed,
    [_event_start] was not invoked and [event_start_time] is still the 0 of
    [start()]; the reading 100 at time 500 ends the event all the same. *)
Lemma update_not_detected_ends_event_witness :
  _successive_detections Scenario.arming
  < min_successive_detections Scenario.arming
  /\ num_detections Scenario.arming = 0
  /\ exists t' : Tripwire,
       update (mkInput 100 500) Scenario.arming
       = Done (t', [Invoke Scenario.on_end])
       /\ _successive_detections t' = 0
       /\ last_event_width t' = 500.
Proof.
  split; [evaluate |]. split; [evaluate |].
  destruct (update_not_detected_ends_event (mkInput 100 500) Scenario.arming)
    as (t' & ev & Hrun & Hs & Hev).
  - evaluate.
  - evaluate.
  - destruct Hev as (Hfire & _ & Hw); [evaluate |].
    exists t'. rewrite Hfire in Hrun.
    split; [exact Hrun |]. split; [exact Hs |].
    rewrite Hw; evaluate.
Defined.

(** C6. Debounce depth 0, baseline 100, threshold 70, counter and
    [num_detections] at 0 as [start()] leaves them, both callbacks
    registered.  The readings 100, 100, 20, 20, 100 invoke the start
    callback once, in the third [update()], and the end callback once, in the
    fifth; [num_detections] ends at 1 and [last_event_width] is the unsigned
    difference of the times of the fifth and third calls, their plain
    difference when the clock has not wrapped in between. *)
Theorem crossing_fires_once (t : Tripwire) (g h : event_callback)
    (t1 t2 t3 t4 t5 : Z) :
  _get_range t <> None ->
  _event_start t = Some g -> _event_end t = Some h ->
  min_successive_detections t = 0 ->
  baseline_distance t = 100 -> distance_threshold t = 70 ->
  _successive_detections t = 0 -> num_detections t = 0 ->
  exists t' : Tripwire,
    run (Scenario.crossing t1 t2 t3 t4 t5) t
    = Done (t', [[]; []; [Invoke g]; []; [Invoke h]])
    /\ num_detections t' = 1
    /\ last_event_width t' = ulong_sub t5 t3
    /\ (0 <= t3 <= t5 -> t5 <= ULONG_MAX -> last_event_width t' = t5 - t3).
Proof.
  intros Hf Hg Hh Hmin Hbd Hthr Hsd Hnd.
  destruct t; cbn in Hf, Hg, Hh, Hmin, Hbd, Hthr, Hsd, Hnd; subst.
  destruct _get_range0 as [f |]; [clear Hf | contradiction Hf; reflexivity].
  eexists. split; [| split; [| split]].
  - cbv -[ulong_sub]. reflexivity.
  - reflexivity.
  - reflexivity.
  - intros H1 H2. fields. now apply ulong_sub_exact.
Qed.

Lemma crossing_fires_once_witness :
  exists t' : Tripwire,
    run (Scenario.crossing 10 20 30 40 50) Scenario.watching
    = Done (t', [[]; []; [Invoke Scenario.on_start]; [];
                 [Invoke Scenario.on_end]])
    /\ num_detections t' = 1
    /\ last_event_width t' = 20.
Proof.
  destruct (crossing_fires_once Scenario.watching Scenario.on_start
              Scenario.on_end 10 20 30 40 50)
    as (t' & Hrun & Hn & _ & Hw);
    [evaluate | evaluate | evaluate | evaluate | evaluate | evaluate
    | evaluate | evaluate |].
  exists t'. split; [exact Hrun |]. split; [exact Hn |].
  rewrite Hw; evaluate.
Defined.

(** ** Sequences of calls *)

Lemma run_app (cs1 cs2 : list Call) :
  forall t : Tripwire,
    run (cs1 ++ cs2) t
    = ' (t1, evs1) <- run cs1 t ;;
      ' (t2, evs2) <- run cs2 t1 ;;
      Done (t2, evs1 ++ evs2).
Proof.
  induction cs1 as [| c cs1 IH]; intros t; cbn [run app bind].
  - destruct (run cs2 t) as [[t2 evs2] |]; reflexivity.
  - destruct (call c t) as [[t1 ev] |]; cbn [bind]; [| reflexivity].
    rewrite IH.
    destruct (run cs1 t1) as [[t2 evs1] |]; cbn [bind]; [| reflexivity].
    destruct (run cs2 t2) as [[t3 evs2] |]; reflexivity.
Qed.

Lemma state_after_app (cs1 cs2 : list Call) (t t1 : Tripwire) :
  state_after cs1 t = Some t1 ->
  state_after (cs1 ++ cs2) t = state_after cs2 t1.
Proof.
  unfold state_after. rewrite run_app.
  destruct (run cs1 t) as [[u evs1] |]; [| discriminate].
  intros H. inversion H; subst. cbn [bind].
  destruct (run cs2 t1) as [[t2 evs2] |]; reflexivity.
Qed.

Lemma last_cons_default {A : Type} (a d : A) (l : list A) :
  last (a :: l) d = last l a.
Proof.
  revert a d. induction l as [| b l IH]; intros a d; [reflexivity |].
  change (last (a :: b :: l) d) with (last (b :: l) d).
  now rewrite (IH b d), (IH b a).
Qed.

(** A detector at rest stays at rest under readings that are not
    detections: only [distance] follows the readings, and no callback is
    invoked. *)
Lemma idle_run (ws : list Input) :
  forall t : Tripwire,
    _get_range t <> None ->
    _successive_detections t = 0 ->
    Forall (fun w' => detected t (range w') = false) ws ->
    run (updates ws) t
    = Done (set_distance (last (map range ws) (distance t)) t,
            repeat [] (length ws)).
Proof.
  induction ws as [| w ws IH]; intros t Hf Hs Hall.
  - cbn. now destruct t.
  - inversion Hall as [| w0 ws0 Hw Hws]; subst.
    cbn [updates map run call length repeat].
    rewrite (update_idle w t Hf Hw) by lia. cbn [bind].
    fold (updates ws). rewrite IH; fields; try assumption.
    + cbn [bind]. rewrite last_cons_default.
      destruct t; cbn in Hs; subst. reflexivity.
    + reflexivity.
Qed.

(** C9, as stated, fails from a state whose counter is positive: with the
    end callback registered and the counter at 1, three [update()] calls
    with the same reading 100, which is not a detection, invoke [_event_end]
    in the first call. *)
Lemma idle_update_fires_pending_end :
  detected Scenario.arming 100 = false
  /\ _successive_detections Scenario.arming = 1
  /\ exists t' : Tripwire,
       run (updates [mkInput 100 500; mkInput 100 600; mkInput 100 700])
         Scenario.arming
       = Done (t', [[Invoke Scenario.on_end]; []; []]).
Proof.
  split; [evaluate |]. split; [evaluate |].
  eexists. vm_compute. reflexivity.
Qed.

(** C9, amended.  From any state, a first [update()] with a reading that
    is not a detection leaves [num_detections] and [event_start_time] as
    they were, and invokes [_event_end], if it is set, exactly when the
    counter was positive; it invokes nothing when the counter was at 0.
    Further [update()] calls with readings that are not detections invoke no
    callback and change nothing but [distance]; with the reading unchanged
    the state does not change at all. *)
Theorem idle_updates_fixed_point (t : Tripwire) (w : Input) (ws : list Input) :
  _get_range t <> None ->
  detected t (range w) = false ->
  Forall (fun w' => detected t (range w') = false) ws ->
  exists (t1 : Tripwire) (ev : list Event),
    update w t = Done (t1, ev)
    /\ num_detections t1 = num_detections t
    /\ event_start_time t1 = event_start_time t
    /\ ev = (if 0 <? _successive_detections t then fire (_event_end t)
             else [])
    /\ run (updates ws) t1
       = Done (set_distance (last (map range ws) (range w)) t1,
               repeat [] (length ws))
    /\ (Forall (fun w' => range w' = range w) ws ->
        run (updates ws) t1 = Done (t1, repeat [] (length ws))).
Proof.
  intros Hf Hd Hall.
  assert (Hlast : Forall (fun w' => range w' = range w) ws ->
                  last (map range ws) (range w) = range w).
  { clear. induction ws as [| a l IH]; intros H; [reflexivity |].
    inversion H; subst. cbn [map]. rewrite last_cons_default.
    rewrite H2. auto. }
  destruct (Z_lt_le_dec 0 (_successive_detections t)) as [Hs | Hs].
  - rewrite (update_end w t Hf Hd Hs).
    eexists. eexists. split; [reflexivity |].
    split; [reflexivity |]. split; [reflexivity |].
    split; [apply Z.ltb_lt in Hs; now rewrite Hs |].
    assert (Hrun : forall d, d = range w ->
              run (updates ws)
                (set__successive_detections 0
                   (set_last_event_width
                      (ulong_sub (millis w) (event_start_time t))
                      (set_distance d t)))
              = Done (set_distance (last (map range ws) d)
                        (set__successive_detections 0
                           (set_last_event_width
                              (ulong_sub (millis w) (event_start_time t))
                              (set_distance d t))),
                      repeat [] (length ws))).
    { intros d _. apply idle_run; fields; auto. }
    split; [now apply Hrun |].
    intros Hsame. rewrite (Hrun _ eq_refl), (Hlast Hsame). reflexivity.
  - rewrite (update_idle w t Hf Hd Hs).
    eexists. eexists. split; [reflexivity |].
    split; [reflexivity |]. split; [reflexivity |].
    split; [apply Z.ltb_ge in Hs; now rewrite Hs |].
    assert (Hrun : forall d, d = range w ->
              run (updates ws)
                (set__successive_detections 0 (set_distance d t))
              = Done (set_distance (last (map range ws) d)
                        (set__successive_detections 0 (set_distance d t)),
                      repeat [] (length ws))).
    { intros d _. apply idle_run; fields; auto. }
    split; [now apply Hrun |].
    intros Hsame. rewrite (Hrun _ eq_refl), (Hlast Hsame). reflexivity.
Qed.

Lemma idle_updates_fixed_point_witness :
  exists t1 : Tripwire,
    update (mkInput 100 500) Scenario.arming
    = Done (t1, [Invoke Scenario.on_end])
    /\ run (updates [mkInput 100 600; mkInput 100 700]) t1
       = Done (t1, [[]; []]).
Proof.
  destruct (idle_updates_fixed_point Scenario.arming (mkInput 100 500)
              [mkInput 100 600; mkInput 100 700])
    as (t1 & ev & Hup & _ & _ & _ & _ & Hfix).
  - evaluate.
  - evaluate.
  - repeat constructor.
  - exists t1. split.
    + rewrite Hup. f_equal. f_equal.
      clear Hfix. revert Hup. vm_compute. intros Hup. inversion Hup. reflexivity.
    + apply Hfix. repeat constructor.
Defined.

(** ** What [start()] and the calls preserve *)

(** [calibrate()] writes [is_calibrated] and the two estimates only. *)
Lemma calibrate_frame (sensor : nat -> Z) (t : Tripwire) :
  let t' := fst (calibrate sensor t) in
  t' = set_is_calibrated (is_calibrated t')
         (set_baseline_distance (baseline_distance t')
            (set_baseline_variance (baseline_variance t') t)).
Proof.
  unfold calibrate.
  destruct (configured (set_is_calibrated false t)); [| now destruct t].
  cbn [calibrate_seed].
  match goal with
  | |- context [calibrate_loop ?f sensor ?k ?s ?r] =>
      pose proof (calibrate_loop_frame sensor f k s r) as Hfr;
      destruct (calibrate_loop f sensor k s r) as [[u reads'] n]
  end.
  cbn [fst] in Hfr. unfold estimates_replaced in Hfr.
  destruct (baseline_variance u <? max_baseline_variance u);
    cbn [fst]; rewrite Hfr; reflexivity.
Qed.

Lemma start_runtime (sensor : nat -> Z) (t : Tripwire) :
  let t' := fst (start sensor t) in
  num_detections t' = 0 /\ _successive_detections t' = 0
  /\ event_start_time t' = 0 /\ last_event_width t' = 0
  /\ min_successive_detections t' = min_successive_detections t.
Proof.
  unfold start. cbn zeta.
  rewrite calibrate_frame. fields. repeat split.
Qed.

(** A call leaves the configuration and the pointers alone. *)
Lemma call_min_successive_detections (c : Call) (t t' : Tripwire)
    (ev : list Event) :
  call c t = Done (t', ev) ->
  min_successive_detections t' = min_successive_detections t.
Proof.
  destruct c as [w |]; cbn [call].
  - unfold update, call_range.
    destruct (_get_range t); cbn [bind]; [| discriminate]. fields.
    repeat match goal with
           | |- context [if ?b then _ else _] => destruct b
           end;
      intros H; inversion H; reflexivity.
  - intros H. inversion H. reflexivity.
Qed.

Lemma call_pointers (c : Call) (t t' : Tripwire) (ev : list Event) :
  call c t = Done (t', ev) ->
  _event_start t' = _event_start t /\ _event_end t' = _event_end t
  /\ _get_range t' = _get_range t.
Proof.
  destruct c as [w |]; cbn [call].
  - unfold update, call_range.
    destruct (_get_range t) eqn:Hf; cbn [bind]; [| discriminate]. fields.
    repeat match goal with
           | |- context [if ?b then _ else _] => destruct b
           end;
      intros H; inversion H; fields; auto.
  - intros H. inversion H. fields. auto.
Qed.

(** The effect of a call on [num_detections]: one more, modulo 2^32, when
    the call confirms an event, and no change otherwise. *)
Lemma call_num_detections (c : Call) (t t' : Tripwire) (ev : list Event) :
  call c t = Done (t', ev) ->
  num_detections t'
  = if confirming c t then ulong_add (num_detections t) 1
    else num_detections t.
Proof.
  destruct c as [w |]; cbn [call confirming].
  - unfold update, call_range, confirms, detected.
    destruct (_get_range t); cbn [bind]; [| discriminate]. fields.
    destruct (distance_threshold t <? long_sub (baseline_distance t) (range w));
      destruct (_successive_detections t =? min_successive_detections t);
      cbn [andb];
      repeat match goal with
             | |- context [if ?b then _ else _] => destruct b
             end;
      intros H; inversion H; reflexivity.
  - intros H. inversion H. reflexivity.
Qed.

Lemma call_num_detections_range (c : Call) (t t' : Tripwire)
    (ev : list Event) :
  call c t = Done (t', ev) ->
  ulong_range (num_detections t) -> ulong_range (num_detections t').
Proof.
  intros H Hr. rewrite (call_num_detections c t t' ev H).
  destruct (confirming c t); [apply ulong_wrap_range | assumption].
Qed.

Lemma state_after_cons (c : Call) (cs : list Call) (t t' : Tripwire) :
  state_after (c :: cs) t = Some t' ->
  exists t1 ev, call c t = Done (t1, ev) /\ state_after cs t1 = Some t'.
Proof.
  unfold state_after. cbn [run].
  destruct (call c t) as [[t1 ev] |]; cbn [bind]; [| discriminate].
  intros H. exists t1, ev. split; [reflexivity |].
  destruct (run cs t1) as [[t2 evs] |]; cbn [bind] in *; [exact H | discriminate].
Qed.

(** A property that holds after [start()] and that every call preserves
    holds in every reachable state. *)
Lemma state_after_invariant (P : Tripwire -> Prop) :
  (forall c t t' ev, call c t = Done (t', ev) -> P t -> P t') ->
  forall cs t t', state_after cs t = Some t' -> P t -> P t'.
Proof.
  intros Hstep. induction cs as [| c cs IH]; intros t t' Hrun Ht.
  - unfold state_after in Hrun. cbn in Hrun. inversion Hrun. now subst.
  - destruct (state_after_cons c cs t t' Hrun) as (t1 & ev & Hc & Hrest).
    eapply IH; [exact Hrest |]. eapply Hstep; eassumption.
Qed.

Lemma reachable_num_detections_range (t : Tripwire) :
  reachable_from_start t -> ulong_range (num_detections t).
Proof.
  intros (sensor & t0 & cs & Hrun).
  apply (state_after_invariant (fun u => ulong_range (num_detections u)))
    with (cs := cs) (t := fst (start sensor t0)).
  - intros c u u' ev. apply call_num_detections_range.
  - exact Hrun.
  - destruct (start_runtime sensor t0) as (Hn & _). rewrite Hn.
    unfold ulong_range. rewrite ULONG_MAX_eq. lia.
Qed.

(** ** [num_detections] *)

(** One object passing in front of a detector at rest: the event is
    confirmed by the first reading and ended by the second. *)
Lemma pass_once (t : Tripwire) :
  Scenario.at_rest t ->
  exists t' : Tripwire,
    state_after (Scenario.passes 1) t = Some t'
    /\ Scenario.at_rest t'
    /\ num_detections t' = ulong_add (num_detections t) 1.
Proof.
  intros (Hf & Hmin & Hsd & Hbd & Hthr & Hnd).
  unfold state_after, Scenario.passes.
  cbn [repeat concat app run call].
  rewrite update_confirm; try assumption.
  - cbn [bind]. rewrite update_end; fields; try assumption.
    + cbn [bind]. eexists. split; [reflexivity |].
      unfold Scenario.at_rest. fields.
      repeat split; try assumption; apply ulong_wrap_range.
    + unfold detected. fields. rewrite Hbd, Hthr. reflexivity.
    + rewrite Hsd. reflexivity.
  - unfold detected. rewrite Hbd, Hthr. reflexivity.
  - congruence.
Qed.

(** After [n] passes the count is the number of passes modulo 2^32. *)
Lemma passes_count (n : nat) :
  forall t : Tripwire,
    Scenario.at_rest t ->
    exists t' : Tripwire,
      state_after (Scenario.passes n) t = Some t'
      /\ Scenario.at_rest t'
      /\ num_detections t' = uwrap long_bits (num_detections t + Z.of_nat n).
Proof.
  induction n as [| n IH]; intros t Hrest.
  - exists t. split; [reflexivity |]. split; [assumption |].
    rewrite Z.add_0_r. symmetry. apply ulong_wrap_id. apply Hrest.
  - destruct (pass_once t Hrest) as (t1 & Hrun1 & Hrest1 & Hn1).
    destruct (IH t1 Hrest1) as (t' & Hrun & Hrest' & Hn).
    exists t'. split; [| split; [assumption |]].
    + change (Scenario.passes (S n))
        with (Scenario.passes 1 ++ Scenario.passes n).
      now rewrite (state_after_app _ _ _ _ Hrun1).
    + rewrite Hn, Hn1. unfold ulong_add, uwrap.
      rewrite Z.add_mod_idemp_l by (unfold long_bits; lia).
      f_equal. lia.
Qed.

(** C7, as stated, fails when [num_detections] has reached the largest
    [unsigned long]: after [start()] and 2^32 - 1 passes the next detection
    confirms an event and takes [num_detections] from 4294967295 to 0. *)
Lemma num_detections_wraps_to_zero :
  exists t t' : Tripwire,
    state_after (Scenario.passes (Z.to_nat 4294967295)) Scenario.watching
    = Some t
    /\ call (Update (mkInput 20 0)) t = Done (t', [Invoke Scenario.on_start])
    /\ confirming (Update (mkInput 20 0)) t = true
    /\ num_detections t = 4294967295
    /\ num_detections t' = 0.
Proof.
  destruct (passes_count (Z.to_nat 4294967295) Scenario.watching)
    as (t & Hrun & (Hf & Hmin & Hsd & Hbd & Hthr & Hnd) & Hn).
  - unfold Scenario.at_rest. evaluate.
  - rewrite Z2Nat.id in Hn by lia.
    change (num_detections Scenario.watching) with 0 in Hn.
    change (uwrap long_bits (0 + 4294967295)) with 4294967295 in Hn.
    assert (Hst : _event_start t = Some Scenario.on_start).
    { apply (state_after_invariant
               (fun u => _event_start u = Some Scenario.on_start))
        with (cs := Scenario.passes (Z.to_nat 4294967295))
             (t := Scenario.watching).
      - intros c u u' ev Hc Hu.
        destruct (call_pointers c u u' ev Hc) as (Hs' & _). congruence.
      - exact Hrun.
      - evaluate. }
    exists t. eexists. split; [exact Hrun |].
    cbn [call confirming]. split; [| split; [| split]].
    + rewrite update_confirm; try assumption.
      * rewrite Hst. reflexivity.
      * unfold detected. rewrite Hbd, Hthr. reflexivity.
      * congruence.
    + unfold confirms, detected. rewrite Hbd, Hthr, Hsd, Hmin. reflexivity.
    + exact Hn.
    + fields. rewrite Hn. reflexivity.
Qed.

(** C7, amended.  In every state reachable from [start()] by [update()]
    and [reset_event_status()] calls, a call that does not confirm an event
    leaves [num_detections] unchanged, and an [update()] that confirms one
    (a detection with the counter equal to [min_successive_detections])
    adds exactly 1 to it, as long as it is below the largest
    [unsigned long], 2^32 - 1; below that value it never decreases. *)
Theorem num_detections_counts_confirmations (t t' : Tripwire) (c : Call)
    (ev : list Event) :
  reachable_from_start t ->
  call c t = Done (t', ev) ->
  (confirming c t = false -> num_detections t' = num_detections t)
  /\ (confirming c t = true -> num_detections t < ULONG_MAX ->
      num_detections t' = num_detections t + 1)
  /\ (num_detections t < ULONG_MAX -> num_detections t <= num_detections t').
Proof.
  intros Hreach Hcall.
  pose proof (reachable_num_detections_range t Hreach) as Hr.
  pose proof (call_num_detections c t t' ev Hcall) as Hn.
  assert (Hinc : num_detections t < ULONG_MAX ->
                 ulong_add (num_detections t) 1 = num_detections t + 1).
  { intros Hlt. unfold ulong_add. apply ulong_wrap_id.
    unfold ulong_range in *. lia. }
  destruct (confirming c t); rewrite Hn.
  - split; [discriminate |]. split; [auto |].
    intros Hlt. rewrite (Hinc Hlt). lia.
  - split; [reflexivity |]. split; [discriminate | lia].
Qed.

Lemma watching_reachable : reachable_from_start Scenario.watching.
Proof.
  exists Scenario.steady, (Scenario.wired Scenario.fresh), [].
  vm_compute. reflexivity.
Qed.

Lemma num_detections_counts_confirmations_witness :
  num_detections Scenario.tripped = num_detections Scenario.watching + 1.
Proof.
  apply (num_detections_counts_confirmations Scenario.watching
           Scenario.tripped (Update (mkInput 20 7))
           [Invoke Scenario.on_start]).
  - exact watching_reachable.
  - evaluate.
  - evaluate.
  - evaluate.
Defined.

(** ** The successive-detection counter *)

(** With a debounce depth below the largest [int], a call keeps the counter
    between 0 and the depth plus one. *)
Lemma call_counter_bounded (c : Call) (t t' : Tripwire) (ev : list Event) :
  call c t = Done (t', ev) ->
  0 <= min_successive_detections t < INT_MAX ->
  0 <= _successive_detections t <= min_successive_detections t + 1 ->
  0 <= _successive_detections t' <= min_successive_detections t' + 1.
Proof.
  intros Hcall Hmin Hsd.
  rewrite (call_min_successive_detections c t t' ev Hcall).
  rewrite INT_MAX_eq in Hmin.
  assert (Hinc : _successive_detections t <= min_successive_detections t ->
                 int_add (_successive_detections t) 1
                 = _successive_detections t + 1).
  { intros Hle. unfold int_add. apply int_wrap_id.
    unfold int_range. rewrite INT_MIN_eq, INT_MAX_eq. lia. }
  destruct c as [w |]; cbn [call] in Hcall.
  - unfold update, call_range in Hcall.
    destruct (_get_range t); cbn [bind] in Hcall; [| discriminate].
    revert Hcall. fields.
    destruct (distance_threshold t <? long_sub (baseline_distance t) (range w)).
    + destruct (_successive_detections t =? min_successive_detections t) eqn:He;
        [apply Z.eqb_eq in He | apply Z.eqb_neq in He].
      * intros H. inversion H. fields. rewrite Hinc; lia.
      * destruct (_successive_detections t <? min_successive_detections t) eqn:Hl;
          [apply Z.ltb_lt in Hl | apply Z.ltb_ge in Hl];
          intros H; inversion H; fields; [rewrite Hinc |]; lia.
    + destruct (0 <? _successive_detections t);
        intros H; inversion H; fields; lia.
  - inversion Hcall. fields. lia.
Qed.

(** C10, amended.  With 0 <= [min_successive_detections] < INT_MAX, so that
    the depth plus one is an [int], every state reachable from [start()] by
    [update()] and [reset_event_status()] calls has its counter between 0
    and [min_successive_detections + 1]; and whatever the depth, a
    detection that finds the counter at [min_successive_detections + 1]
    leaves it there and invokes no callback. *)
Theorem counter_bounded (t : Tripwire) :
  reachable_from_start t ->
  (0 <= min_successive_detections t < INT_MAX ->
   0 <= _successive_detections t <= min_successive_detections t + 1)
  /\ (forall (w : Input) (t' : Tripwire) (ev : list Event),
        detected t (range w) = true ->
        _successive_detections t = min_successive_detections t + 1 ->
        update w t = Done (t', ev) ->
        _successive_detections t' = _successive_detections t /\ ev = []).
Proof.
  intros (sensor & t0 & cs & Hrun). split.
  - intros Hmin.
    set (P := fun u : Tripwire =>
                min_successive_detections u = min_successive_detections t
                /\ 0 <= _successive_detections u
                   <= min_successive_detections u + 1).
    assert (Hfin : P t); [| apply Hfin].
    assert (Hback : forall cs' u, state_after cs' u = Some t ->
              min_successive_detections u = min_successive_detections t).
    { intros cs' u H. symmetry.
      apply (state_after_invariant
               (fun v => min_successive_detections v
                         = min_successive_detections u))
        with (cs := cs') (t := u); [| exact H | reflexivity].
      intros c v v' ev Hc Hv.
      now rewrite (call_min_successive_detections c v v' ev Hc). }
    apply (state_after_invariant P) with (cs := cs) (t := fst (start sensor t0)).
    + intros c u u' ev Hc (Hu & Hb). unfold P. split.
      * now rewrite (call_min_successive_detections c u u' ev Hc).
      * apply (call_counter_bounded c u u' ev Hc); [rewrite Hu |]; assumption.
    + exact Hrun.
    + unfold P. rewrite (Hback cs _ Hrun). split; [reflexivity |].
      destruct (start_runtime sensor t0) as (_ & Hs & _).
      rewrite Hs. lia.
  - intros w t' ev Hd Hs Hup.
    destruct (_get_range t) eqn:Hf.
    + rewrite update_hold in Hup; try assumption; try congruence; try lia.
      inversion Hup. split; reflexivity.
    + rewrite (update_null_range w t Hf) in Hup. discriminate.
Qed.

Lemma counter_bounded_witness :
  0 <= _successive_detections Scenario.tripped
    <= min_successive_detections Scenario.tripped + 1.
Proof.
  apply (counter_bounded Scenario.tripped).
  - exists Scenario.steady, (Scenario.wired Scenario.fresh),
      [Update (mkInput 20 7)].
    vm_compute. reflexivity.
  - evaluate.
Defined.

(** C10, as stated, fails for the largest debounce depth an [int] can hold:
    with [min_successive_detections] = 32767 the 32768th detection in a row
    finds the counter equal to the depth and increments it, and the 16-bit
    counter comes out at -32768. *)
Lemma counter_overflows_at_int_max :
  0 <= min_successive_detections Scenario.patient
  /\ option_map _successive_detections
       (state_after (Scenario.blocked (Z.to_nat 32768)) Scenario.patient)
     = Some (-32768).
Proof.
  split; [evaluate |]. vm_compute. reflexivity.
Qed.

(** * Further properties of the code *)

(** ** Calibration: what it writes, how many readings it takes *)

(** [calibrate()] writes [is_calibrated] and the two baseline estimates and
    nothing else: the runtime state, the configuration and the three
    pointers are as before. *)
Theorem calibrate_writes_calibration_state_only (sensor : nat -> Z)
    (t : Tripwire) :
  fst (calibrate sensor t)
  = set_is_calibrated (is_calibrated (fst (calibrate sensor t)))
      (set_baseline_distance (baseline_distance (fst (calibrate sensor t)))
         (set_baseline_variance (baseline_variance (fst (calibrate sensor t)))
            t)).
Proof.
  exact (calibrate_frame sensor t).
Qed.

(** Inside the loop the read count and the number of calls of the ranging
    function stay equal, and the count never passes [max_baseline_reads]
    once it is below it. *)
Lemma calibrate_loop_count (sensor : nat -> Z) (fuel : nat) :
  forall (k : nat) (t : Tripwire) (reads : Z),
    int_range (max_baseline_reads t) ->
    reads = Z.of_nat k ->
    forall t' reads' k',
      calibrate_loop fuel sensor k t reads = (t', reads', k') ->
      reads' = Z.of_nat k' /\ reads <= reads'
      /\ reads' <= Z.max reads (max_baseline_reads t)
      /\ max_baseline_reads t' = max_baseline_reads t
      /\ min_baseline_reads t' = min_baseline_reads t
      /\ max_baseline_variance t' = max_baseline_variance t.
Proof.
  induction fuel as [| fuel IH]; intros k t reads Hmax Hk t' reads' k' Hrun;
    cbn [calibrate_loop] in Hrun.
  - inversion Hrun; subst. repeat split; lia.
  - destruct (loop_cond t reads) eqn:Hc.
    + pose proof (loop_cond_reads _ _ Hc) as Hlt.
      assert (Hlo : INT_MIN <= reads) by (rewrite INT_MIN_eq; lia).
      pose proof (loop_body_reads (sensor k) t reads Hmax Hlo Hlt) as Hr.
      destruct (loop_body (sensor k) t reads) as [t1 reads1] eqn:Hb.
      cbn [snd] in Hr. subst reads1.
      assert (Hm : max_baseline_reads t1 = max_baseline_reads t
                   /\ min_baseline_reads t1 = min_baseline_reads t
                   /\ max_baseline_variance t1 = max_baseline_variance t)
        by (unfold loop_body in Hb; inversion Hb; repeat split).
      destruct Hm as (Hm1 & Hm2 & Hm3).
      assert (Hmax1 : int_range (max_baseline_reads t1)) by now rewrite Hm1.
      assert (Hk1 : reads + 1 = Z.of_nat (S k)) by lia.
      destruct (IH (S k) t1 (reads + 1) Hmax1 Hk1 _ _ _ Hrun)
        as (H1 & H2 & H3 & H4 & H5 & H6).
      rewrite Hm1 in *. repeat split; try congruence; lia.
    + inversion Hrun; subst. repeat split; lia.
Qed.

(** With a ranging function and a nonzero threshold, [calibrate()] takes at
    least one reading and at most [max_baseline_reads] (one, when that is
    below 1); when it stops before [max_baseline_reads] it has taken at
    least [min_baseline_reads] readings and the variance is at or below
    the ceiling. *)
Theorem calibrate_read_count (sensor : nat -> Z) (t : Tripwire) :
  configured t = true ->
  int_range (max_baseline_reads t) ->
  let t' := fst (calibrate sensor t) in
  let n := Z.of_nat (snd (calibrate sensor t)) in
  1 <= n <= Z.max 1 (max_baseline_reads t)
  /\ (n < max_baseline_reads t ->
      min_baseline_reads t <= n
      /\ baseline_variance t' <= max_baseline_variance t).
Proof.
  intros Hc Hmax. unfold calibrate.
  replace (configured (set_is_calibrated false t)) with true
    by (now rewrite <- Hc).
  cbn [calibrate_seed].
  match goal with
  | |- context [calibrate_loop ?f sensor ?k ?s ?r] =>
      destruct (calibrate_loop_exits sensor f k s r)
        as (u & reads' & n & Hrun & Hexit);
      [exact Hmax | rewrite INT_MIN_eq; lia | unfold loop_fuel; cbn; lia |];
      destruct (calibrate_loop_count sensor f k s r Hmax eq_refl _ _ _ Hrun)
        as (Hn & Hlo & Hhi & Hm1 & Hm2 & Hm3);
      rewrite Hrun
  end.
  cbn [max_baseline_reads min_baseline_reads max_baseline_variance
       set_baseline_variance set_baseline_distance set_is_calibrated]
    in Hhi, Hm1, Hm2, Hm3.
  assert (Hgoal : 1 <= Z.of_nat n <= Z.max 1 (max_baseline_reads t)
                  /\ (Z.of_nat n < max_baseline_reads t ->
                      min_baseline_reads t <= Z.of_nat n
                      /\ baseline_variance u <= max_baseline_variance t)).
  { rewrite <- Hn. split; [lia |]. intros Hlt.
    unfold loop_cond in Hexit. rewrite Hm1, Hm2, Hm3 in Hexit.
    apply andb_false_iff in Hexit. destruct Hexit as [Hor | Hge].
    - apply orb_false_iff in Hor. destruct Hor as [H1 H2].
      apply Z.ltb_ge in H1, H2. lia.
    - apply Z.ltb_ge in Hge. lia. }
  destruct (baseline_variance u <? max_baseline_variance u); exact Hgoal.
Qed.

Lemma calibrate_read_count_witness :
  1 <= Z.of_nat (snd (calibrate Scenario.steady Scenario.fresh))
    <= Z.max 1 (max_baseline_reads Scenario.fresh).
Proof.
  apply (calibrate_read_count Scenario.steady Scenario.fresh).
  - reflexivity.
  - evaluate.
Defined.

(** ** Calibration in front of a fixed target *)




(** ** Calibration does not depend on the history of the object *)

Lemma calibrate_loop_agree (sensor : nat -> Z) (fuel : nat) :
  forall (k : nat) (t u : Tripwire) (reads : Z),
    min_baseline_reads t = min_baseline_reads u ->
    max_baseline_reads t = max_baseline_reads u ->
    max_baseline_variance t = max_baseline_variance u ->
    baseline_distance t = baseline_distance u ->
    baseline_variance t = baseline_variance u ->
    let rt := calibrate_loop fuel sensor k t reads in
    let ru := calibrate_loop fuel sensor k u reads in
    baseline_distance (fst (fst rt)) = baseline_distance (fst (fst ru))
    /\ baseline_variance (fst (fst rt)) = baseline_variance (fst (fst ru))
    /\ max_baseline_variance (fst (fst rt))
       = max_baseline_variance (fst (fst ru))
    /\ snd rt = snd ru.
Proof.
  induction fuel as [| fuel IH]; intros k t u reads H1 H2 H3 H4 H5;
    cbn [calibrate_loop].
  - cbn. auto.
  - assert (Hc : loop_cond t reads = loop_cond u reads)
      by (unfold loop_cond; now rewrite H1, H2, H3, H5).
    rewrite <- Hc. destruct (loop_cond t reads); [| cbn; auto].
    unfold loop_body, new_variance.
    cbn [baseline_distance baseline_variance set_baseline_variance].
    rewrite H4, H5. apply IH; reflexivity || assumption.
Qed.

Lemma calibrate_agree (sensor : nat -> Z) (t u : Tripwire) :
  calibration_config t = calibration_config u ->
  configured t = true ->
  calibration_result (calibrate sensor t)
  = calibration_result (calibrate sensor u).
Proof.
  unfold calibration_config. intros Hcfg Hc.
  inversion Hcfg as [[Hcu H1 H2 H3]]. rewrite Hc in Hcu.
  unfold calibrate.
  replace (configured (set_is_calibrated false t)) with true
    by (now rewrite <- Hc).
  replace (configured (set_is_calibrated false u)) with true
    by (now rewrite Hcu).
  cbn [calibrate_seed].
  match goal with
  | |- context [calibrate_loop ?f sensor ?k ?s ?r] =>
      match goal with
      | |- context [calibrate_loop ?f' sensor k ?s' r] =>
          lazymatch s' with
          | s => fail
          | _ =>
              replace f' with f by (unfold loop_fuel; cbn; now rewrite H2);
              pose proof (calibrate_loop_agree sensor f k s s' r H1 H2 H3
                            eq_refl eq_refl) as Hag;
              pose proof (calibrate_loop_frame sensor f k s r) as Hfs;
              pose proof (calibrate_loop_frame sensor f k s' r) as Hfs';
              destruct (calibrate_loop f sensor k s r) as [[a ra] ka];
              destruct (calibrate_loop f sensor k s' r) as [[b rb] kb]
          end
      end
  end.
  cbn [fst snd] in Hag, Hfs, Hfs'. destruct Hag as (Hd & Hv & Hm & Hk).
  rewrite Hv, Hm. unfold calibration_result.
  assert (Ha : is_calibrated a = false) by (rewrite Hfs; reflexivity).
  assert (Hb : is_calibrated b = false) by (rewrite Hfs'; reflexivity).
  destruct (baseline_variance b <? max_baseline_variance b);
    cbn [fst snd is_calibrated baseline_distance baseline_variance
         set_is_calibrated]; congruence.
Qed.

(** With a ranging function and a nonzero threshold, the verdict, the two
    estimates and the number of readings of [calibrate()] are determined by
    the readings and by [min_baseline_reads], [max_baseline_reads] and
    [max_baseline_variance]: earlier estimates, the runtime state and the
    callbacks play no part. *)
Theorem calibrate_result_from_config (sensor : nat -> Z) (t u : Tripwire) :
  calibration_config t = calibration_config u ->
  configured t = true ->
  calibration_result (calibrate sensor t)
  = calibration_result (calibrate sensor u).
Proof.
  exact (calibrate_agree sensor t u).
Qed.

Lemma calibrate_result_from_config_witness :
  calibration_result (calibrate Scenario.swinging Scenario.fresh)
  = calibration_result (calibrate Scenario.swinging Scenario.tripped).
Proof.
  apply (calibrate_result_from_config Scenario.swinging Scenario.fresh
           Scenario.tripped).
  - vm_compute. reflexivity.
  - reflexivity.
Defined.

(** [start()] zeroes the runtime state, leaves [distance], the configuration
    and the pointers alone, and calibrates exactly as [calibrate()] would
    have on the object as it was. *)
Theorem start_resets_then_calibrates (sensor : nat -> Z) (t : Tripwire) :
  let t' := fst (start sensor t) in
  (num_detections t' = 0 /\ _successive_detections t' = 0
   /\ event_start_time t' = 0 /\ last_event_width t' = 0)
  /\ (distance t' = distance t
      /\ distance_threshold t' = distance_threshold t
      /\ min_baseline_reads t' = min_baseline_reads t
      /\ max_baseline_reads t' = max_baseline_reads t
      /\ max_baseline_variance t' = max_baseline_variance t
      /\ baseline_read_interval t' = baseline_read_interval t
      /\ min_successive_detections t' = min_successive_detections t
      /\ _event_start t' = _event_start t /\ _event_end t' = _event_end t
      /\ _get_range t' = _get_range t)
  /\ calibration_result (start sensor t)
     = calibration_result (calibrate sensor t).
Proof.
  cbn zeta. split; [| split].
  - unfold start. rewrite calibrate_frame. fields. repeat split.
  - unfold start. rewrite calibrate_frame. fields. repeat split.
  - unfold start.
    destruct (configured t) eqn:Hc.
    + symmetry. apply calibrate_agree; [reflexivity | exact Hc].
    + rewrite !calibrate_unconfigured; [reflexivity | exact Hc |].
      unfold configured in *. fields. exact Hc.
Qed.

(** Without a ranging function, or with [distance_threshold] at zero,
    [calibrate()] takes no reading and keeps both estimates, but still
    clears [is_calibrated]: an earlier successful calibration is lost. *)
Theorem calibrate_skipped (sensor : nat -> Z) (t : Tripwire) :
  _get_range t = None \/ distance_threshold t = 0 ->
  calibrate sensor t = (set_is_calibrated false t, 0%nat).
Proof.
  intros H. apply calibrate_unconfigured. unfold configured.
  destruct H as [H | H]; rewrite H; [reflexivity |].
  destruct (_get_range t); reflexivity.
Qed.

Lemma calibrate_skipped_witness :
  is_calibrated Scenario.watching = true
  /\ calibrate Scenario.steady (Scenario.disarmed)
     = (set_is_calibrated false Scenario.disarmed, 0%nat).
Proof.
  split; [evaluate |].
  apply (calibrate_skipped Scenario.steady Scenario.disarmed).
  right. vm_compute. reflexivity.
Defined.

(** ** What one [update()] does *)

Lemma update_settings (w : Input) (t t' : Tripwire) (ev : list Event) :
  update w t = Done (t', ev) -> settings t' = settings t.
Proof.
  unfold update, call_range, settings.
  destruct (_get_range t) eqn:Hf; cbn [bind]; [| discriminate]. fields.
  repeat match goal with
         | |- context [if ?b then _ else _] => destruct b
         end;
    intros H; inversion H; fields; rewrite ?Hf; reflexivity.
Qed.

Lemma update_outcome (w : Input) (t t' : Tripwire) (ev : list Event) :
  update w t = Done (t', ev) ->
  distance t' = range w
  /\ settings t' = settings t
  /\ event_start_time t'
     = (if confirms t (range w) then millis w else event_start_time t)
  /\ last_event_width t'
     = (if ends t (range w)
        then ulong_sub (millis w) (event_start_time t)
        else last_event_width t)
  /\ ev = (if confirms t (range w) then fire (_event_start t)
           else if ends t (range w) then fire (_event_end t)
           else []).
Proof.
  unfold update, call_range, confirms, ends, detected, settings.
  destruct (_get_range t) eqn:Hf; cbn [bind]; [| discriminate]. fields.
  destruct (distance_threshold t <? long_sub (baseline_distance t) (range w));
    destruct (_successive_detections t =? min_successive_detections t);
    destruct (0 <? _successive_detections t);
    cbn [andb negb];
    repeat match goal with
           | |- context [if ?b then _ else _] => destruct b
           end;
    intros H; inversion H; fields; rewrite ?Hf; repeat split.
Qed.


(** An [update()] that returns stores the reading in [distance], never
    touches the calibration state, the configuration or the pointers, and
    invokes at most one callback: [_event_start] when it confirms an event,
    which is also the only case in which [event_start_time] is written, and
    [_event_end] when a reading that is not a detection finds the counter
    positive, which is the only case in which [last_event_width] is
    written. *)
Theorem update_effects (w : Input) (t t' : Tripwire) (ev : list Event) :
  update w t = Done (t', ev) ->
  distance t' = range w
  /\ settings t' = settings t
  /\ event_start_time t'
     = (if confirms t (range w) then millis w else event_start_time t)
  /\ last_event_width t'
     = (if ends t (range w)
        then ulong_sub (millis w) (event_start_time t)
        else last_event_width t)
  /\ ev = (if confirms t (range w) then fire (_event_start t)
           else if ends t (range w) then fire (_event_end t)
           else []).
Proof.
  exact (update_outcome w t t' ev).
Qed.

Lemma update_effects_witness :
  distance Scenario.tripped = 20
  /\ settings Scenario.tripped = settings Scenario.watching
  /\ event_start_time Scenario.tripped = 7.
Proof.
  destruct (update_effects (mkInput 20 7) Scenario.watching Scenario.tripped
              [Invoke Scenario.on_start])
    as (Hd & Hs & He & _).
  - vm_compute. reflexivity.
  - split; [exact Hd |]. split; [exact Hs |]. rewrite He. evaluate.
Defined.

(** No sequence of [update()] and [reset_event_status()] calls changes the
    calibration state, the configuration or the pointers. *)
Theorem calls_keep_settings (cs : list Call) (t t' : Tripwire) :
  state_after cs t = Some t' -> settings t' = settings t.
Proof.
  intros Hrun.
  apply (state_after_invariant (fun u => settings u = settings t))
    with (cs := cs) (t := t); [| exact Hrun | reflexivity].
  intros c u u' ev Hc Hu. rewrite <- Hu.
  destruct c as [w |]; cbn [call] in Hc.
  - apply (update_settings w u u' ev Hc).
  - inversion Hc. reflexivity.
Qed.

Lemma calls_keep_settings_witness :
  settings (Scenario.after (Scenario.crossing 10 20 30 40 50)
              Scenario.watching)
  = settings Scenario.watching.
Proof.
  apply (calls_keep_settings (Scenario.crossing 10 20 30 40 50)).
  vm_compute. reflexivity.
Defined.

(** ** Debouncing *)

Lemma updates_app (ws1 ws2 : list Input) :
  updates (ws1 ++ ws2) = updates ws1 ++ updates ws2.
Proof.
  apply map_app.
Qed.

Lemma counter_distance_replaced_fields (t u : Tripwire) :
  counter_distance_replaced t u ->
  _get_range u = _get_range t
  /\ min_successive_detections u = min_successive_detections t
  /\ num_detections u = num_detections t
  /\ last_event_width u = last_event_width t
  /\ event_start_time u = event_start_time t
  /\ _event_start u = _event_start t
  /\ _event_end u = _event_end t
  /\ (forall d, detected u d = detected t d).
Proof.
  unfold counter_distance_replaced. intros Hu.
  rewrite Hu. unfold detected. fields. repeat split.
Qed.

(** Detections below the debounce depth only count up. *)
Lemma arming_run (ws : list Input) :
  forall t : Tripwire,
    _get_range t <> None ->
    0 <= _successive_detections t ->
    _successive_detections t + Z.of_nat (length ws)
    <= min_successive_detections t ->
    min_successive_detections t <= INT_MAX ->
    Forall (fun w => detected t (range w) = true) ws ->
    exists t' : Tripwire,
      run (updates ws) t = Done (t', repeat [] (length ws))
      /\ counter_distance_replaced t t'
      /\ _successive_detections t'
         = _successive_detections t + Z.of_nat (length ws).
Proof.
  induction ws as [| w ws IH]; intros t Hf Hlo Hhi Hmax Hall.
  - exists t. split; [reflexivity |]. split; [| cbn; lia].
    unfold counter_distance_replaced. now destruct t.
  - inversion Hall as [| w0 ws0 Hw Hws]; subst.
    cbn [length] in Hhi. rewrite INT_MAX_eq in Hmax.
    assert (Hinc : int_add (_successive_detections t) 1
                   = _successive_detections t + 1).
    { unfold int_add. apply int_wrap_id.
      unfold int_range. rewrite INT_MIN_eq, INT_MAX_eq. lia. }
    destruct (IH (set__successive_detections
                    (int_add (_successive_detections t) 1)
                    (set_distance (range w) t)))
      as (t' & Hrun & Hrep & Hsd); fields;
      try rewrite Hinc; try assumption; try lia.
    exists t'. split; [| split].
    + cbn [updates map run call length repeat].
      rewrite (update_arm w t Hf Hw) by lia. cbn [bind].
      fold (updates ws). rewrite Hrun. reflexivity.
    + unfold counter_distance_replaced in *. rewrite Hrep at 1.
      reflexivity.
    + rewrite Hsd. fields. rewrite Hinc. cbn [length]. lia.
Qed.

(** Detections during a confirmed event change [distance] only. *)
Lemma hold_run (ws : list Input) :
  forall t : Tripwire,
    _get_range t <> None ->
    min_successive_detections t < _successive_detections t ->
    Forall (fun w => detected t (range w) = true) ws ->
    run (updates ws) t
    = Done (set_distance (last (map range ws) (distance t)) t,
            repeat [] (length ws)).
Proof.
  induction ws as [| w ws IH]; intros t Hf Hs Hall.
  - cbn. now destruct t.
  - inversion Hall as [| w0 ws0 Hw Hws]; subst.
    cbn [updates map run call length repeat].
    rewrite (update_hold w t Hf Hw Hs). cbn [bind].
    fold (updates ws). rewrite IH; fields; try assumption.
    cbn [bind]. rewrite last_cons_default. reflexivity.
Qed.

(** From rest, with a debounce depth [n] below INT_MAX, a run of
    detections confirms exactly one event, on detection number [n + 1]:
    the first [n] readings invoke nothing, the next invokes [_event_start],
    adds one to [num_detections] and records its time, and however many
    detections follow invoke nothing more. *)
Theorem detections_confirm_one_event (t : Tripwire) (ws1 : list Input)
    (w : Input) (ws2 : list Input) :
  _get_range t <> None ->
  _successive_detections t = 0 ->
  Z.of_nat (length ws1) = min_successive_detections t ->
  min_successive_detections t < INT_MAX ->
  Forall (fun w' => detected t (range w') = true) (ws1 ++ w :: ws2) ->
  exists t' : Tripwire,
    run (updates (ws1 ++ w :: ws2)) t
    = Done (t', repeat [] (length ws1)
                ++ fire (_event_start t) :: repeat [] (length ws2))
    /\ num_detections t' = ulong_add (num_detections t) 1
    /\ event_start_time t' = millis w
    /\ last_event_width t' = last_event_width t
    /\ _successive_detections t' = min_successive_detections t + 1.
Proof.
  intros Hf Hsd Hlen Hmax Hall.
  apply Forall_app in Hall. destruct Hall as [Hall1 Hall2].
  inversion Hall2 as [| w0 ws0 Hw Hws2]; subst.
  destruct (arming_run ws1 t Hf) as (t1 & Hrun1 & Hrep & Hsd1);
    try assumption; try lia.
  destruct (counter_distance_replaced_fields t t1 Hrep)
    as (Hf1 & Hmin1 & Hn1 & Hl1 & _ & He1 & _ & Hd1).
  rewrite updates_app, run_app, Hrun1. cbn [bind].
  cbn [updates map run call].
  rewrite INT_MAX_eq in Hmax.
  assert (Hinc : int_add (_successive_detections t1) 1
                 = min_successive_detections t + 1).
  { unfold int_add. rewrite Hsd1, Hsd, Hlen. apply int_wrap_id.
    unfold int_range. rewrite INT_MIN_eq, INT_MAX_eq. lia. }
  rewrite update_confirm;
    [| congruence | now rewrite Hd1 | rewrite Hsd1, Hmin1; lia].
  cbn [bind]. fold (updates ws2).
  rewrite hold_run; fields.
  - cbn [bind]. eexists. split; [rewrite He1; reflexivity |].
    fields. rewrite Hn1, Hl1, Hinc. repeat split.
  - congruence.
  - rewrite Hinc, Hmin1. lia.
  - revert Hws2. apply Forall_impl. intros a Ha.
    unfold detected in *. fields.
    specialize (Hd1 (range a)). unfold detected in Hd1.
    now rewrite Hd1.
Qed.

Lemma detections_confirm_one_event_witness :
  exists t' : Tripwire,
    run (updates ([mkInput 20 10; mkInput 20 20; mkInput 20 30]
                  ++ mkInput 20 40 :: [mkInput 20 50])) Scenario.cautious
    = Done (t', [[]; []; []; [Invoke Scenario.on_start]; []])
    /\ num_detections t' = 1
    /\ event_start_time t' = 40.
Proof.
  destruct (detections_confirm_one_event Scenario.cautious
              [mkInput 20 10; mkInput 20 20; mkInput 20 30]
              (mkInput 20 40) [mkInput 20 50])
    as (t' & Hrun & Hn & He & _).
  - evaluate.
  - evaluate.
  - evaluate.
  - evaluate.
  - repeat constructor.
  - exists t'. split; [exact Hrun |]. split; [| exact He].
    rewrite Hn. vm_compute. reflexivity.
Defined.

(** A burst of [k] detections, [1 <= k <= min_successive_detections],
    followed by a reading that is not a detection confirms nothing:
    [num_detections] and [event_start_time] are unchanged and
    [_event_start] is not invoked, yet [_event_end] is invoked and
    [last_event_width] is written from the old [event_start_time]. *)
Theorem short_burst_ends_unconfirmed (t : Tripwire) (ws : list Input)
    (w : Input) :
  _get_range t <> None ->
  _successive_detections t = 0 ->
  (1 <= length ws)%nat ->
  Z.of_nat (length ws) <= min_successive_detections t ->
  min_successive_detections t <= INT_MAX ->
  Forall (fun w' => detected t (range w') = true) ws ->
  detected t (range w) = false ->
  exists t' : Tripwire,
    run (updates (ws ++ [w])) t
    = Done (t', repeat [] (length ws) ++ [fire (_event_end t)])
    /\ num_detections t' = num_detections t
    /\ event_start_time t' = event_start_time t
    /\ last_event_width t' = ulong_sub (millis w) (event_start_time t)
    /\ _successive_detections t' = 0.
Proof.
  intros Hf Hsd Hk Hlen Hmax Hall Hw.
  destruct (arming_run ws t Hf) as (t1 & Hrun1 & Hrep & Hsd1);
    try assumption; try lia.
  destruct (counter_distance_replaced_fields t t1 Hrep)
    as (Hf1 & _ & Hn1 & _ & Hs1 & _ & He1 & Hd1).
  rewrite updates_app, run_app, Hrun1. cbn [bind].
  cbn [updates map run call].
  rewrite update_end.
  - cbn [bind]. eexists. split.
    + rewrite He1. reflexivity.
    + fields. rewrite Hn1, Hs1. repeat split.
  - congruence.
  - now rewrite Hd1.
  - rewrite Hsd1. lia.
Qed.

Lemma short_burst_ends_unconfirmed_witness :
  exists t' : Tripwire,
    run (updates ([mkInput 20 10; mkInput 20 20] ++ [mkInput 100 30]))
      Scenario.cautious
    = Done (t', [[]; []; [Invoke Scenario.on_end]])
    /\ num_detections t' = 0
    /\ last_event_width t' = 30.
Proof.
  destruct (short_burst_ends_unconfirmed Scenario.cautious
              [mkInput 20 10; mkInput 20 20] (mkInput 100 30))
    as (t' & Hrun & Hn & _ & Hl & _).
  - evaluate.
  - evaluate.
  - cbn. lia.
  - evaluate.
  - evaluate.
  - repeat constructor.
  - vm_compute. reflexivity.
  - exists t'. split; [exact Hrun |]. split.
    + rewrite Hn. vm_compute. reflexivity.
    + rewrite Hl. vm_compute. reflexivity.
Defined.

(** ** [reset_event_status()] followed by [update()] *)

(** After [reset_event_status()], whatever the counter was, a reading that
    is not a detection invokes no callback and leaves [last_event_width]
    alone: the end of the interrupted event is never reported.  With a
    debounce depth of 0 a detection right after the reset confirms a new
    event: an object that never left is counted once more. *)
Theorem reset_then_update (w : Input) (t : Tripwire) :
  _get_range t <> None ->
  (detected t (range w) = false ->
   exists t' : Tripwire,
     update w (reset_event_status t) = Done (t', [])
     /\ last_event_width t' = last_event_width t
     /\ num_detections t' = num_detections t)
  /\ (detected t (range w) = true -> min_successive_detections t = 0 ->
      exists t' : Tripwire,
        update w (reset_event_status t) = Done (t', fire (_event_start t))
        /\ num_detections t' = ulong_add (num_detections t) 1).
Proof.
  intros Hf. split.
  - intros Hd. rewrite update_idle; fields; try assumption; try lia.
    eexists. split; [reflexivity |]. split; reflexivity.
  - intros Hd Hmin. rewrite update_confirm; fields; try assumption.
    + eexists. split; [reflexivity |]. reflexivity.
    + congruence.
Qed.

Lemma reset_then_update_witness :
  _successive_detections Scenario.tripped = 1
  /\ (exists t' : Tripwire,
        update (mkInput 100 9) (reset_event_status Scenario.tripped)
        = Done (t', []))
  /\ (exists t' : Tripwire,
        update (mkInput 20 9) (reset_event_status Scenario.tripped)
        = Done (t', [Invoke Scenario.on_start])
        /\ num_detections t' = 2).
Proof.
  split; [evaluate |].
  destruct (reset_then_update (mkInput 100 9) Scenario.tripped) as [H1 _];
    [evaluate |].
  destruct (reset_then_update (mkInput 20 9) Scenario.tripped) as [_ H2];
    [evaluate |].
  split.
  - destruct H1 as (t' & Hrun & _); [evaluate |]. exists t'. exact Hrun.
  - destruct H2 as (t' & Hrun & Hn); [evaluate | evaluate |].
    exists t'. split; [exact Hrun |]. rewrite Hn. vm_compute. reflexivity.
Defined.

(** ** The detection test *)

(** When [baseline_distance - distance] does not overflow, a reading is a
    detection exactly when it is below the baseline by more than the
    threshold; with a threshold that is not negative, a reading at or beyond
    the baseline is never one. *)
Theorem detected_without_overflow (t : Tripwire) (d : Z) :
  long_range (baseline_distance t - d) ->
  (detected t d = true <-> d < baseline_distance t - distance_threshold t)
  /\ (0 <= distance_threshold t -> baseline_distance t <= d ->
      detected t d = false).
Proof.
  intros Hr. unfold detected, long_sub. rewrite (long_wrap_id _ Hr). split.
  - rewrite Z.ltb_lt. lia.
  - intros Ht Hd. apply Z.ltb_ge. lia.
Qed.

Lemma detected_without_overflow_witness :
  (detected Scenario.watching 20 = true
   <-> 20 < baseline_distance Scenario.watching
            - distance_threshold Scenario.watching)
  /\ detected Scenario.watching 250 = false.
Proof.
  split.
  - apply (detected_without_overflow Scenario.watching 20). evaluate.
  - apply (detected_without_overflow Scenario.watching 250); evaluate.
Defined.

(** ** The pointers *)

(** Neither the constructor nor [start()] assigns the two callbacks: after
    both they hold what the storage of the object held, and [_get_range]
    holds the constructor's argument, or what the storage held when that
    argument was null. *)
Theorem constructor_leaves_callbacks (get_range : option range_function)
    (raw : Tripwire) (sensor : nat -> Z) :
  let t := fst (start sensor (Tripwire_ctor get_range raw)) in
  _event_start t = _event_start raw
  /\ _event_end t = _event_end raw
  /\ _get_range t = match get_range with
                    | Some f => Some f
                    | None => _get_range raw
                    end.
Proof.
  cbn zeta. unfold start. rewrite calibrate_frame. fields.
  repeat split.
Qed.

Lemma update_returns (w : Input) (t : Tripwire) :
  _get_range t <> None -> exists t' ev, update w t = Done (t', ev).
Proof.
  intros Hf. unfold update, call_range.
  destruct (_get_range t); [| contradiction Hf; reflexivity].
  cbn [bind].
  repeat match goal with
         | |- context [if ?b then _ else _] => destruct b
         end; eexists; eexists; reflexivity.
Qed.

(** Once the object has a ranging function, no sequence of calls of the
    public member functions, with whatever arguments, takes it away again,
    and no call in the sequence goes through a null pointer. *)
Theorem range_function_stays_set (ms : list Method) :
  forall t : Tripwire,
    _get_range t <> None ->
    exists (t' : Tripwire) (evs : list (list Event)),
      invoke_all ms t = Done (t', evs) /\ _get_range t' <> None.
Proof.
  induction ms as [| m ms IH]; intros t Hf.
  - exists t, []. split; [reflexivity | exact Hf].
  - assert (Hstep : exists t1 ev,
              invoke m t = Done (t1, ev) /\ _get_range t1 <> None).
    { destruct m as [sensor | sensor | w | f | f | f |]; cbn [invoke].
      - eexists. eexists. split; [reflexivity |].
        unfold start. rewrite calibrate_frame. fields. exact Hf.
      - eexists. eexists. split; [reflexivity |].
        rewrite calibrate_frame. fields. exact Hf.
      - destruct (update_returns w t Hf) as (t1 & ev & Hup).
        exists t1, ev. split; [exact Hup |].
        pose proof (update_settings w t t1 ev Hup) as Hs.
        unfold settings in Hs. inversion Hs. congruence.
      - eexists. eexists. split; [reflexivity |].
        destruct f; [discriminate | exact Hf].
      - eexists. eexists. split; [reflexivity |].
        destruct f; exact Hf.
      - eexists. eexists. split; [reflexivity |].
        destruct f; exact Hf.
      - eexists. eexists. split; [reflexivity | exact Hf]. }
    destruct Hstep as (t1 & ev & Hinv & Hf1).
    destruct (IH t1 Hf1) as (t' & evs & Hrun & Hf').
    exists t', (ev :: evs). split; [| exact Hf'].
    cbn [invoke_all]. rewrite Hinv. cbn [bind]. rewrite Hrun. reflexivity.
Qed.

Lemma range_function_stays_set_witness :
  exists (t' : Tripwire) (evs : list (list Event)),
    invoke_all [MSetRangeFunction None; MStart Scenario.steady;
                MUpdate (mkInput 20 1)] Scenario.fresh
    = Done (t', evs) /\ _get_range t' <> None.
Proof.
  apply (range_function_stays_set
           [MSetRangeFunction None; MStart Scenario.steady;
            MUpdate (mkInput 20 1)] Scenario.fresh).
  discriminate.
Defined.

(** ** Callbacks and [num_detections] *)

Lemma run_cons_inv (c : Call) (cs : list Call) (t t' : Tripwire)
    (evs : list (list Event)) :
  run (c :: cs) t = Done (t', evs) ->
  exists t1 ev evs1,
    call c t = Done (t1, ev) /\ run cs t1 = Done (t', evs1)
    /\ evs = ev :: evs1.
Proof.
  cbn [run]. destruct (call c t) as [[t1 ev] |]; cbn [bind]; [| discriminate].
  destruct (run cs t1) as [[t2 evs1] |] eqn:Hrest; cbn [bind];
    [| discriminate].
  intros H. inversion H; subst. exists t1, ev, evs1.
  split; [reflexivity |]. split; [exact Hrest | reflexivity].
Qed.

(** The callbacks a call invokes. *)
Lemma call_events (c : Call) (t t' : Tripwire) (ev : list Event) :
  call c t = Done (t', ev) ->
  ev = match c with
       | Update w =>
           if confirms t (range w) then fire (_event_start t)
           else if ends t (range w) then fire (_event_end t)
           else []
       | ResetEventStatus => []
       end.
Proof.
  destruct c as [w |]; cbn [call]; intros H.
  - now destruct (update_outcome w t t' ev H) as (_ & _ & _ & _ & Hev).
  - now inversion H.
Qed.

(** With no callback registered, no sequence of [update()] and
    [reset_event_status()] calls invokes anything: a missing callback is
    skipped, whatever the readings. *)
Theorem no_callbacks_no_events (cs : list Call) :
  forall (t t' : Tripwire) (evs : list (list Event)),
    _event_start t = None -> _event_end t = None ->
    run cs t = Done (t', evs) ->
    Forall (fun ev => ev = []) evs.
Proof.
  induction cs as [| c cs IH]; intros t t' evs Hs He Hrun.
  - cbn in Hrun. inversion Hrun. constructor.
  - destruct (run_cons_inv c cs t t' evs Hrun)
      as (t1 & ev & evs1 & Hc & Hrest & Hevs).
    subst evs.
    destruct (call_pointers c t t1 ev Hc) as (Hs1 & He1 & _).
    constructor.
    + rewrite (call_events c t t1 ev Hc), Hs, He.
      destruct c as [w |]; [| reflexivity].
      destruct (confirms t (range w)); [reflexivity |].
      destruct (ends t (range w)); reflexivity.
    + apply (IH t1 t' evs1); congruence.
Qed.

Lemma no_callbacks_no_events_witness :
  Forall (fun ev => ev = []) [[]; []; []; []; @nil Event].
Proof.
  apply (no_callbacks_no_events (Scenario.crossing 10 20 30 40 50)
           Scenario.silent
           (Scenario.after (Scenario.crossing 10 20 30 40 50) Scenario.silent)).
  - vm_compute. reflexivity.
  - vm_compute. reflexivity.
  - vm_compute. reflexivity.
Defined.

Lemma call_invokes (g : event_callback) (c : Call) (t t' : Tripwire)
    (ev : list Event) :
  _event_start t = Some g -> _event_end t <> Some g ->
  call c t = Done (t', ev) ->
  invokes g ev = confirming c t.
Proof.
  intros Hs He Hc. rewrite (call_events c t t' ev Hc).
  destruct c as [w |]; cbn [confirming]; [| reflexivity].
  destruct (confirms t (range w)).
  - rewrite Hs. cbn. apply Pos.eqb_refl.
  - destruct (ends t (range w)); [| reflexivity].
    destruct (_event_end t) as [h |]; [| reflexivity].
    cbn. apply Pos.eqb_neq. congruence.
Qed.

(** With a start callback registered (and a different end callback, or
    none), over any sequence of [update()] and [reset_event_status()] calls
    [num_detections] grows by the number of calls in which the start
    callback was invoked, modulo 2^32. *)
Theorem num_detections_counts_start_callbacks (cs : list Call) :
  forall (t t' : Tripwire) (evs : list (list Event)) (g : event_callback),
    _event_start t = Some g -> _event_end t <> Some g ->
    ulong_range (num_detections t) ->
    run cs t = Done (t', evs) ->
    num_detections t'
    = uwrap long_bits (num_detections t + Z.of_nat (invocations g evs)).
Proof.
  induction cs as [| c cs IH]; intros t t' evs g Hs He Hr Hrun.
  - cbn in Hrun. inversion Hrun; subst. cbn.
    rewrite Z.add_0_r. symmetry. now apply ulong_wrap_id.
  - destruct (run_cons_inv c cs t t' evs Hrun)
      as (t1 & ev & evs1 & Hc & Hrest & Hevs).
    subst evs.
    destruct (call_pointers c t t1 ev Hc) as (Hs1 & He1 & _).
    pose proof (call_num_detections c t t1 ev Hc) as Hn.
    pose proof (call_num_detections_range c t t1 ev Hc Hr) as Hr1.
    pose proof (call_invokes g c t t1 ev Hs He Hc) as Hi.
    rewrite (IH t1 t' evs1 g); try congruence; try assumption.
    unfold invocations. cbn [filter]. rewrite Hi, Hn.
    destruct (confirming c t).
    + cbn [length]. unfold ulong_add, uwrap.
      rewrite Z.add_mod_idemp_l by (unfold long_bits; lia).
      f_equal. lia.
    + reflexivity.
Qed.

Lemma num_detections_counts_start_callbacks_witness :
  num_detections
    (Scenario.after (Scenario.crossing 10 20 30 40 50) Scenario.watching)
  = uwrap long_bits
      (num_detections Scenario.watching
       + Z.of_nat (invocations Scenario.on_start
                     [[]; []; [Invoke Scenario.on_start]; [];
                      [Invoke Scenario.on_end]])).
Proof.
  apply (num_detections_counts_start_callbacks
           (Scenario.crossing 10 20 30 40 50) Scenario.watching).
  - vm_compute. reflexivity.
  - vm_compute. discriminate.
  - evaluate.
  - vm_compute. reflexivity.
Defined.
